(** * HealthBridge AI: the message-processing pipeline

    A shallow embedding of [agents/coordinator.py], [utils/translation.py]
    and [utils/whatsapp.py], with the properties of the pipeline that the
    specification states.

    Conventions of the embedding.
    - A Python [str] is a Rocq [string], one [ascii] per code point; the
      case mapping and the white-space set below are Python's on the code
      points 0..255.  The literals of this file are ASCII.
    - A Python [dict] with string keys and string values is a
      [gmap string string].
    - A call that may raise returns a [result]; [try ... except Exception]
      is [try_except].  Only exceptions deriving from [Exception] are
      modelled.
    - The SQLAlchemy session is a store ([World]): two tables kept in
      insertion order, their auto-increment counters, and the answer of
      the database to a row.  [commit] stores the pending row or raises
      what the database answered, according to the values of the row;
      a query does not fail.
    - The external capabilities (language detection, Google translation,
      the LLM chain, the Twilio client) are the fields of an [Env]; each
      is an arbitrary function of its arguments. *)

From Stdlib Require Import ZArith Ascii.
From stdpp Require Import base option list gmap strings.

Local Open Scope Z_scope.

(** ** Python strings *)

Module Py.

Definition code (c : ascii) : N := N_of_ascii c.

(** [str.lower] on one code point below 256: A..Z and the Latin-1
    capitals (all of 0xC0..0xDE except the multiplication sign 0xD7)
    move up by 32. *)
Definition lower_char (c : ascii) : ascii :=
  let n := code c in
  if ((65 <=? n) && (n <=? 90))%N
     || ((192 <=? n) && (n <=? 222) && negb (n =? 215))%N
  then ascii_of_N (n + 32) else c.

Fixpoint lower (s : string) : string :=
  match s with
  | EmptyString => EmptyString
  | String c s' => String (lower_char c) (lower s')
  end.

(** [str.isspace] on one code point below 256. *)
Definition isspace (c : ascii) : bool :=
  let n := code c in
  (((9 <=? n) && (n <=? 13)) || ((28 <=? n) && (n <=? 32))
   || (n =? 133) || (n =? 160))%N.

Fixpoint lstrip (s : string) : string :=
  match s with
  | EmptyString => EmptyString
  | String c s' => if isspace c then lstrip s' else s
  end.

(** What [rstrip] leaves of [s]: a character is kept when it is not
    white space or when something is kept after it. *)
Fixpoint rstrip (s : string) : string :=
  match s with
  | EmptyString => EmptyString
  | String c s' =>
      match rstrip s' with
      | EmptyString => if isspace c then EmptyString else String c EmptyString
      | t => String c t
      end
  end.

Definition strip (s : string) : string := rstrip (lstrip s).

(** [s.startswith(p)] *)
Fixpoint startswith (s p : string) : bool :=
  match p, s with
  | EmptyString, _ => true
  | String a p', String b s' => if Ascii.eqb a b then startswith s' p' else false
  | String _ _, EmptyString => false
  end.

(** [p in s] for strings: [p] occurs in [s] at some offset. *)
Fixpoint contains (p s : string) : bool :=
  startswith s p ||
  match s with
  | EmptyString => false
  | String _ s' => contains p s'
  end.

(** Truth value of a string: the empty string is false. *)
Definition truthy (s : string) : bool :=
  match s with EmptyString => false | _ => true end.

(** The values [translate_text] may be handed as [text]. *)
Inductive value :=
| VNone
| VBool (b : bool)
| VInt (n : Z)
| VStr (s : string)
| VBytes (s : string)
| VList (l : list string).

(** [bool(v)] *)
Definition value_truthy (v : value) : bool :=
  match v with
  | VNone => false
  | VBool b => b
  | VInt n => negb (n =? 0)
  | VStr s => truthy s
  | VBytes s => truthy s
  | VList l => match l with [] => false | _ => true end
  end.

(** [isinstance(v, str)] *)
Definition is_str (v : value) : bool :=
  match v with VStr _ => true | _ => false end.

(** *** Exceptions *)

Inductive exn_class := TranslationNotFound | KeyError | OtherException.

(** An exception object: its class and its [str(e)]. *)
Record exn := Exn { exn_cls : exn_class; exn_str : string }.

Inductive result (A : Type) :=
| Ok (a : A)
| Raise (e : exn).
Arguments Ok {A} a.
Arguments Raise {A} e.

Definition is_ok {A} (r : result A) : bool :=
  match r with Ok _ => true | Raise _ => false end.

(** [try: body  except Exception as e: handler(e)] *)
Definition try_except {A} (body : result A) (handler : exn -> result A)
  : result A :=
  match body with
  | Ok a => Ok a
  | Raise e => handler e
  end.

(** *** Dictionaries *)

(** [d.get(k)] is the lookup [d !! k]; [d.get(k, default)]: *)
Definition get_default (d : gmap string string) (k default : string) : string :=
  match d !! k with Some v => v | None => default end.

(** Truth value of [d.get(k)]: [None] and the empty string are false. *)
Definition get_truthy (d : gmap string string) (k : string) : bool :=
  match d !! k with Some v => truthy v | None => false end.

(** [d[k]], raising [KeyError(k)]; [str(KeyError(k))] is [repr(k)]. *)
Definition getitem (d : gmap string string) (k : string) : result string :=
  match d !! k with
  | Some v => Ok v
  | None => Raise (Exn KeyError ("'" +:+ k +:+ "'"))
  end.

End Py.

Import Py.

(** ** [utils/translation.py] *)

(** [GoogleTranslator(source=, target=).translate(text)]: the translated
    text, [None], or an exception (from the constructor or the call). *)
Definition Translator := string -> string -> string -> result (option string).

Definition translate_text (translator : Translator)
    (text : value) (dest_lang source_lang : string)
  : result (gmap string string) :=
  if negb (value_truthy text) || negb (is_str text) then
    Ok {[ "error" := "Invalid input text for translation." ]}
  else
    match text with
    | VStr text =>
        try_except
          (match translator source_lang dest_lang text with
           | Raise e => Raise e
           | Ok (Some translated_text) =>
               if truthy translated_text then
                 Ok (<[ "translated_text" := translated_text ]>
                     (<[ "source_language" :=
                           if negb (String.eqb source_lang "auto")
                           then source_lang else "auto detected" ]>
                     {[ "dest_language" := dest_lang ]}))
               else Ok {[ "error" := "Translation returned an empty result." ]}
           | Ok None =>
               Ok {[ "error" := "Translation returned an empty result." ]}
           end)
          (fun e =>
             match exn_cls e with
             | TranslationNotFound =>
                 Ok {[ "error" :=
                         "Could not translate the text. It might be too short or in an unsupported language. Details: "
                         +:+ exn_str e ]}
             | _ => Ok {[ "error" := exn_str e ]}
             end)
    | _ => Ok {[ "error" := "Invalid input text for translation." ]}
    end.

(** ** [utils/whatsapp.py] *)

(** [client.messages.create(from_=, body=, to=)]: the SID of the message,
    or an exception. *)
Definition TwilioClient := string -> string -> string -> result string.

Definition send_whatsapp_message
    (client : option TwilioClient) (TWILIO_WHATSAPP_NUMBER : string)
    (to_number message_body : string) : result string :=
  match client with
  | None => Ok "Twilio client is not initialized. Cannot send message."
  | Some messages_create =>
      let to_number :=
        if negb (startswith to_number "whatsapp:")
        then "whatsapp:" +:+ to_number else to_number in
      try_except
        (messages_create TWILIO_WHATSAPP_NUMBER message_body to_number)
        (fun e => Ok ("Error: " +:+ exn_str e))
  end.

(** ** [backend/models/models.py]: the two tables the pipeline touches *)

Module Patient.
Record t := Build {
  id : Z;
  phone_number : string;
  name : option string;
  language : option string
}.
End Patient.

Module Message.
Record t := Build {
  id : Z;
  patient_id : Z;
  session_id : string;
  sender : string;
  content : string;
  translated_content : option string;
  language : option string
}.
End Message.

(** What the pipeline did, in the order it did it. *)
Inductive event :=
| EvDetect (text : string)
| EvTranslate (text dest_lang : string)
| EvPatientCreated (p : Patient.t)
| EvPatientUpdated (p : Patient.t)
| EvLogMessage (m : Message.t)
| EvClassify (text : string)
| EvSend (to_number body : string).

(** A row as the session sends it to the database: the values the code
    gives to the columns of [patients] or of [messages]. *)
Inductive row :=
| PatientRow (phone_number : string) (name language : option string)
| MessageRow (patient_id : Z) (session_id sender content : string)
             (translated_content language : option string).

(** The database behind [self.db], and the log of the calls made.
    [commit] is what [db.commit()] does with a pending INSERT or UPDATE of
    a row: it goes through, or it raises (on PostgreSQL, [DataError] for a
    value longer than its [String(n)] column, [ValueError] for a NUL
    character in a text).  The answer depends on the values of the row
    only.  A row that goes through is stored with the values given; a
    refused one leaves the tables and the counters as they were, and the
    exception leaves the method that called [commit]. *)
Record World := MkWorld {
  patients : list Patient.t;
  messages : list Message.t;
  next_patient_id : Z;
  next_message_id : Z;
  calls : list event;
  commit : row -> result unit
}.

Definition record_call (ev : event) (w : World) : World :=
  MkWorld (patients w) (messages w) (next_patient_id w) (next_message_id w)
          (calls w ++ [ev]) (commit w).

Definition record_calls (evs : list event) (w : World) : World :=
  foldl (fun w ev => record_call ev w) w evs.

(** ** Stateful, fallible computations *)

Definition M (A : Type) : Type := World -> result A * World.

#[global] Instance M_ret : MRet M := fun A a w => (Ok a, w).

(** An exception leaves the block; what was committed stays. *)
#[global] Instance M_bind : MBind M := fun A B k m w =>
  match m w with
  | (Ok a, w') => k a w'
  | (Raise e, w') => (Raise e, w')
  end.

(** A call that only has a result: what it returns or raises. *)
Definition lift {A} (r : result A) : M A := fun w => (r, w).

Definition emit (ev : event) : M unit := fun w => (Ok tt, record_call ev w).

(** ** [agents/coordinator.py] *)

(** Modelled from the spec: [detect_language], which the coordinator
    imports from [utils.translation] and which is not defined there.  It is
    the language service's [detect(text) -> {language, error?}]: a dict for
    every text, with an [error] entry when detection failed. *)
Definition LanguageDetector := string -> gmap string string.

(** The capabilities the coordinator reaches. *)
Record Env := MkEnv {
  detect_language : LanguageDetector;
  translator : Translator;
  (** [self.llm_chain]: [None] when the API key is not configured,
      otherwise what [llm_chain.run(message=...)] returns or raises. *)
  llm_chain : option (string -> result string);
  client : option TwilioClient;
  TWILIO_WHATSAPP_NUMBER : string
}.

(** [db.query(Patient).filter(Patient.phone_number == phone).first()] *)
Definition query_patient (phone_number : string) (w : World) : option Patient.t :=
  List.find (fun p => String.eqb (Patient.phone_number p) phone_number)
            (patients w).

(** [patient.language = language; db.commit()], where [patient] is the
    row the query returned: the first one with this phone number. *)
Definition with_language (language : string) (p : Patient.t) : Patient.t :=
  Patient.Build (Patient.id p) (Patient.phone_number p) (Patient.name p)
                (Some language).

Fixpoint update_patient (phone_number language : string)
    (rows : list Patient.t) : list Patient.t :=
  match rows with
  | [] => []
  | p :: rows' =>
      if String.eqb (Patient.phone_number p) phone_number
      then with_language language p :: rows'
      else p :: update_patient phone_number language rows'
  end.

Definition get_or_create_patient (phone_number language : string) : M Patient.t :=
  fun w =>
    match query_patient phone_number w with
    | None =>
        let patient :=
          Patient.Build (next_patient_id w) phone_number None (Some language) in
        match commit w (PatientRow phone_number None (Some language)) with
        | Ok _ =>
            (Ok patient,
             record_call (EvPatientCreated patient)
               (MkWorld (patients w ++ [patient]) (messages w)
                        (next_patient_id w + 1) (next_message_id w) (calls w)
                        (commit w)))
        | Raise e => (Raise e, w)
        end
    | Some patient =>
        if negb (bool_decide (Patient.language patient = Some language)) then
          let patient := with_language language patient in
          match commit w (PatientRow (Patient.phone_number patient)
                                     (Patient.name patient) (Some language))
          with
          | Ok _ =>
              (Ok patient,
               record_call (EvPatientUpdated patient)
                 (MkWorld (update_patient phone_number language (patients w))
                          (messages w) (next_patient_id w) (next_message_id w)
                          (calls w) (commit w)))
          | Raise e => (Raise e, w)
          end
        else (Ok patient, w)
    end.

Definition classify_intent (llm_chain : option (string -> result string))
    (message : string) : result string :=
  match llm_chain with
  | None =>
      if contains "book" (lower message) || contains "appointment" (lower message)
      then Ok "book_appointment"
      else if contains "hello" (lower message) || contains "habari" (lower message)
      then Ok "greeting"
      else Ok "unclear"
  | Some run =>
      try_except
        (match run message with
         | Ok response => Ok (lower (strip response))
         | Raise e => Raise e
         end)
        (fun _ => Ok "unclear")
  end.

Definition log_message (patient_id : Z) (session_id sender content : string)
    (translated_content lang : option string) : M unit :=
  fun w =>
    let msg := Message.Build (next_message_id w) patient_id session_id sender
                             content translated_content lang in
    match commit w (MessageRow patient_id session_id sender content
                               translated_content lang) with
    | Ok _ =>
        (Ok tt,
         record_call (EvLogMessage msg)
           (MkWorld (patients w) (messages w ++ [msg]) (next_patient_id w)
                    (next_message_id w + 1) (calls w) (commit w)))
    | Raise e => (Raise e, w)
    end.

(** Step 5 of [process_message]: the English reply for an intent. *)
Definition response_text_en (intent : string) : string :=
  if String.eqb intent "greeting" then
    "Hello! Welcome to HealthBridge AI. How can I help you today? You can ask to book an appointment, or ask a health-related question."
  else if String.eqb intent "book_appointment" then
    "I can help with that. To book an appointment, I need to know the reason for your visit and your preferred date and time."
  else if String.eqb intent "unclear" then
    "I'm sorry, I didn't understand that. Could you please rephrase? You can ask to book an appointment or ask a health question."
  else
    "Intent identified: " +:+ intent +:+ ". The '" +:+ intent
      +:+ "' agent will assist you shortly.".

Record TurnResult := MkTurnResult {
  status : string;
  intent : string;
  response : string
}.

Section Coordinator.

Variable env : Env.

(** The calls [process_message] makes to its collaborators; each is
    entered in the log when it is made. *)

Definition call_detect_language (text : string) : M (gmap string string) :=
  emit (EvDetect text) ;; mret (detect_language env text).

Definition call_translate_text (text dest_lang : string)
  : M (gmap string string) :=
  emit (EvTranslate text dest_lang) ;;
  lift (translate_text (translator env) (VStr text) dest_lang "auto").

Definition call_classify_intent (message : string) : M string :=
  emit (EvClassify message) ;; lift (classify_intent (llm_chain env) message).

Definition call_send_whatsapp_message (to_number message_body : string)
  : M string :=
  emit (EvSend to_number message_body) ;;
  lift (send_whatsapp_message (client env) (TWILIO_WHATSAPP_NUMBER env)
                              to_number message_body).

Definition process_message (incoming_msg patient_phone : string)
  : M TurnResult :=
  (* 1. Detect language and translate to English if necessary *)
  lang_detection ← call_detect_language incoming_msg ;
  let source_lang := get_default lang_detection "language" "en" in
  message_for_processing ←
    (if negb (String.eqb source_lang "en")
        && negb (get_truthy lang_detection "error")
     then
       translation ← call_translate_text incoming_msg "en" ;
       if negb (get_truthy translation "error")
       then lift (getitem translation "translated_text")
       else mret incoming_msg
     else mret incoming_msg) ;
  (* 2. Get or create patient record *)
  patient ← get_or_create_patient patient_phone source_lang ;
  (* 3. Log the incoming message *)
  log_message (Patient.id patient) patient_phone "patient" incoming_msg
    (if negb (String.eqb source_lang "en")
     then Some message_for_processing else None)
    (Some source_lang) ;;
  (* 4. Classify intent *)
  intent ← call_classify_intent message_for_processing ;
  (* 5. Route to the appropriate agent/logic *)
  let response_text_en := response_text_en intent in
  (* 6. Translate response back to patient's language *)
  final_response ←
    (if negb (String.eqb source_lang "en")
     then
       translation_back ← call_translate_text response_text_en source_lang ;
       if negb (get_truthy translation_back "error")
       then lift (getitem translation_back "translated_text")
       else mret response_text_en
     else mret response_text_en) ;
  (* 7. Send response via WhatsApp and log it *)
  call_send_whatsapp_message patient_phone final_response ;;
  log_message (Patient.id patient) patient_phone "coordinator" final_response
    (if negb (String.eqb source_lang "en")
     then Some response_text_en else None)
    (Some source_lang) ;;
  mret (MkTurnResult "processed" intent final_response).

End Coordinator.

(** ** The vocabulary of the statements *)

(** The intents the classification prompt lists. *)
Definition INTENT_LABELS : list string :=
  [ "book_appointment"; "reschedule_appointment"; "cancel_appointment";
    "ask_question"; "greeting"; "affirmative"; "negative"; "unclear" ].

(** The turn's detected language ([source_lang] in [process_message]). *)
Definition source_lang_of (env : Env) (msg : string) : string :=
  get_default (detect_language env msg) "language" "en".

(** The guard of step 1: the inbound text is sent to translation. *)
Definition translates_inbound (env : Env) (msg : string) : bool :=
  negb (String.eqb (source_lang_of env msg) "en")
  && negb (get_truthy (detect_language env msg) "error").

(** What steps 1 and 6 make of one call to [translate_text]: the
    translation, the fallback when the result has a true [error] entry,
    and [KeyError] when it has neither. *)
Definition translation_or (tr : Translator) (text dest_lang fallback : string)
  : result string :=
  match translate_text tr (VStr text) dest_lang "auto" with
  | Ok translation =>
      if negb (get_truthy translation "error")
      then getitem translation "translated_text" else Ok fallback
  | Raise e => Raise e
  end.

(** [message_for_processing] *)
Definition inbound_text (env : Env) (msg : string) : result string :=
  if translates_inbound env msg
  then translation_or (translator env) msg "en" msg else Ok msg.

(** [final_response] *)
Definition outbound_text (env : Env) (source_lang text_en : string)
  : result string :=
  if negb (String.eqb source_lang "en")
  then translation_or (translator env) text_en source_lang text_en
  else Ok text_en.

Definition inbound_calls (env : Env) (msg : string) : list event :=
  EvDetect msg
  :: (if translates_inbound env msg then [EvTranslate msg "en"] else []).

Definition outbound_calls (source_lang text_en : string) : list event :=
  if negb (String.eqb source_lang "en")
  then [EvTranslate text_en source_lang] else [].

(** The [translated_content] argument of both [log_message] calls. *)
Definition translated_if_foreign (source_lang text : string) : option string :=
  if negb (String.eqb source_lang "en") then Some text else None.

Definition inbound_record (w : World) (patient : Patient.t)
    (phone msg source_lang text : string) : Message.t :=
  Message.Build (next_message_id w) (Patient.id patient) phone "patient" msg
                (translated_if_foreign source_lang text) (Some source_lang).

Definition outbound_record (w : World) (patient : Patient.t)
    (phone final source_lang text_en : string) : Message.t :=
  Message.Build (next_message_id w + 1) (Patient.id patient) phone "coordinator"
                final (translated_if_foreign source_lang text_en)
                (Some source_lang).

(** The rows of the two [log_message] calls. *)
Definition inbound_row (patient : Patient.t)
    (phone msg source_lang text : string) : row :=
  MessageRow (Patient.id patient) phone "patient" msg
             (translated_if_foreign source_lang text) (Some source_lang).

Definition outbound_row (patient : Patient.t)
    (phone final source_lang text_en : string) : row :=
  MessageRow (Patient.id patient) phone "coordinator" final
             (translated_if_foreign source_lang text_en) (Some source_lang).

(** The row [get_or_create_patient] writes, if it writes one: the new
    patient, or the known one with the new language. *)
Definition patient_row (phone language : string) (w : World) : option row :=
  match query_patient phone w with
  | None => Some (PatientRow phone None (Some language))
  | Some p =>
      if bool_decide (Patient.language p = Some language) then None
      else Some (PatientRow (Patient.phone_number p) (Patient.name p)
                            (Some language))
  end.

(** A database that takes every row. *)
Definition accepting (w : World) : Prop := forall r, commit w r = Ok tt.

(** The six ways a turn ends: [KeyError] in step 1, the database refusing
    the patient's row in step 2 or the inbound record in step 3,
    [KeyError] in step 6, the database refusing the outbound record in
    step 7, or the result of step 7.  [w1] is the store after step 2. *)
Inductive turn_outcome (env : Env) (msg phone : string) (w : World)
  : result TurnResult -> World -> Prop :=
| turn_inbound_raises e :
    inbound_text env msg = Raise e ->
    turn_outcome env msg phone w (Raise e)
                 (record_calls (inbound_calls env msg) w)
| turn_patient_refused text e :
    inbound_text env msg = Ok text ->
    get_or_create_patient phone (source_lang_of env msg)
      (record_calls (inbound_calls env msg) w)
    = (Raise e, record_calls (inbound_calls env msg) w) ->
    turn_outcome env msg phone w (Raise e)
                 (record_calls (inbound_calls env msg) w)
| turn_inbound_record_refused text patient w1 e :
    inbound_text env msg = Ok text ->
    get_or_create_patient phone (source_lang_of env msg)
      (record_calls (inbound_calls env msg) w) = (Ok patient, w1) ->
    commit w1 (inbound_row patient phone msg (source_lang_of env msg) text)
    = Raise e ->
    turn_outcome env msg phone w (Raise e) w1
| turn_outbound_raises text patient w1 intent e w' :
    inbound_text env msg = Ok text ->
    get_or_create_patient phone (source_lang_of env msg)
      (record_calls (inbound_calls env msg) w) = (Ok patient, w1) ->
    commit w1 (inbound_row patient phone msg (source_lang_of env msg) text)
    = Ok tt ->
    classify_intent (llm_chain env) text = Ok intent ->
    outbound_text env (source_lang_of env msg) (response_text_en intent)
      = Raise e ->
    patients w' = patients w1 ->
    messages w' = messages w1
      ++ [inbound_record w1 patient phone msg (source_lang_of env msg) text] ->
    calls w' = calls w1
      ++ [EvLogMessage
            (inbound_record w1 patient phone msg (source_lang_of env msg) text);
          EvClassify text]
      ++ outbound_calls (source_lang_of env msg) (response_text_en intent) ->
    turn_outcome env msg phone w (Raise e) w'
| turn_outbound_record_refused text patient w1 intent final e w' :
    inbound_text env msg = Ok text ->
    get_or_create_patient phone (source_lang_of env msg)
      (record_calls (inbound_calls env msg) w) = (Ok patient, w1) ->
    commit w1 (inbound_row patient phone msg (source_lang_of env msg) text)
    = Ok tt ->
    classify_intent (llm_chain env) text = Ok intent ->
    outbound_text env (source_lang_of env msg) (response_text_en intent)
      = Ok final ->
    commit w1 (outbound_row patient phone final (source_lang_of env msg)
                            (response_text_en intent))
    = Raise e ->
    patients w' = patients w1 ->
    messages w' = messages w1
      ++ [inbound_record w1 patient phone msg (source_lang_of env msg) text] ->
    calls w' = calls w1
      ++ [EvLogMessage
            (inbound_record w1 patient phone msg (source_lang_of env msg) text);
          EvClassify text]
      ++ outbound_calls (source_lang_of env msg) (response_text_en intent)
      ++ [EvSend phone final] ->
    turn_outcome env msg phone w (Raise e) w'
| turn_completes text patient w1 intent final w' :
    inbound_text env msg = Ok text ->
    get_or_create_patient phone (source_lang_of env msg)
      (record_calls (inbound_calls env msg) w) = (Ok patient, w1) ->
    commit w1 (inbound_row patient phone msg (source_lang_of env msg) text)
    = Ok tt ->
    classify_intent (llm_chain env) text = Ok intent ->
    outbound_text env (source_lang_of env msg) (response_text_en intent)
      = Ok final ->
    commit w1 (outbound_row patient phone final (source_lang_of env msg)
                            (response_text_en intent))
    = Ok tt ->
    patients w' = patients w1 ->
    messages w' = messages w1
      ++ [inbound_record w1 patient phone msg (source_lang_of env msg) text;
          outbound_record w1 patient phone final (source_lang_of env msg)
                          (response_text_en intent)] ->
    calls w' = calls w1
      ++ [EvLogMessage
            (inbound_record w1 patient phone msg (source_lang_of env msg) text);
          EvClassify text]
      ++ outbound_calls (source_lang_of env msg) (response_text_en intent)
      ++ [EvSend phone final;
          EvLogMessage
            (outbound_record w1 patient phone final (source_lang_of env msg)
                             (response_text_en intent))] ->
    turn_outcome env msg phone w (Ok (MkTurnResult "processed" intent final)) w'.


Definition is_translate (ev : event) : bool :=
  match ev with EvTranslate _ _ => true | _ => false end.

Definition is_send (ev : event) : bool :=
  match ev with EvSend _ _ => true | _ => false end.

Definition is_log_or_classify (ev : event) : bool :=
  match ev with EvLogMessage _ | EvClassify _ => true | _ => false end.

(** An event of the directory: neither a translation, nor a dispatch, nor
    a log append, nor a classification. *)
Definition quiet (ev : event) : Prop :=
  is_translate ev = false /\ is_send ev = false /\ is_log_or_classify ev = false.


(** A translator whose failures leave a text in the [error] entry: what
    it raises is [TranslationNotFound] or has a non-empty [str]. *)
Definition reports_failures (tr : Translator) : Prop :=
  forall source_lang dest_lang text e,
    tr source_lang dest_lang text = Raise e ->
    exn_cls e = TranslationNotFound \/ exn_str e <> "".

(** ** Concrete capabilities and stores for the examples *)

(** The answer of a database that takes every row. *)
Definition accepts_all : row -> result unit := fun _ => Ok tt.

Definition empty_world : World := MkWorld [] [] 1 1 [] accepts_all.








(** Language detection answering [sw], answering nothing but an error,
    and answering [sw] together with an error. *)
Definition detects_sw : LanguageDetector :=
  fun _ => {[ "language" := "sw" ]}.


Definition detects_sw_with_error : LanguageDetector :=
  fun _ => <[ "language" := "sw" ]> {[ "error" := "detection failed" ]}.

Definition detects_by_greeting : LanguageDetector :=
  fun text => if contains "habari" (lower text)
              then {[ "language" := "sw" ]} else {[ "language" := "en" ]}.

(** A translator that works, one that finds no translation, one that
    raises an exception without a message, and one that works towards
    English only and otherwise raises without a message. *)
Definition translator_works : Translator :=
  fun _ dest_lang _ =>
    if String.eqb dest_lang "en" then Ok (Some "I want to book an appointment")
    else Ok (Some "Naweza kusaidia.").

Definition translator_not_found : Translator :=
  fun _ _ _ => Raise (Exn TranslationNotFound "no translation found").

Definition translator_raises_bare : Translator :=
  fun _ _ _ => Raise (Exn OtherException "").

Definition translator_to_english_only : Translator :=
  fun _ dest_lang _ =>
    if String.eqb dest_lang "en" then Ok (Some "hello")
    else Raise (Exn OtherException "").

(** An LLM chain that answers outside the prompt's list. *)
Definition llm_chatty : string -> result string :=
  fun _ => Ok "I am not sure.".

Definition twilio_down : TwilioClient :=
  fun _ _ _ => Raise (Exn OtherException "HTTP 503").

Definition env_sw : Env :=
  MkEnv detects_sw translator_works None None "".

Definition env_sw_not_found : Env :=
  MkEnv detects_sw translator_not_found None None "".

Definition env_sw_error_not_found : Env :=
  MkEnv detects_sw_with_error translator_not_found None None "".


Definition env_language_service_down : Env :=
  MkEnv detects_sw_with_error translator_raises_bare None None "".

Definition env_reply_untranslated : Env :=
  MkEnv detects_sw translator_to_english_only None None "".

Definition env_drift_unreported : Env :=
  MkEnv detects_by_greeting translator_raises_bare None None "".

(** A store that already knows the patient, with Swahili on record. *)
Definition world_with_sw_patient : World :=
  MkWorld [Patient.Build 1 "+100" None (Some "sw")] [] 2 1 [] accepts_all.

(** ** Invariants of the store *)

(** A computation keeps [I]: whatever it returns or raises, [I] holds of
    the store it leaves when it held of the store it started in. *)
Definition keeps {A} (I : World -> Prop) (m : M A) : Prop :=
  forall w r w', I w -> m w = (r, w') -> I w'.

(** The store as the database keeps it: phone numbers and ids are unique,
    and the counters are above every id handed out. *)
Record consistent (w : World) : Prop := {
  unique_phone_numbers : NoDup (map Patient.phone_number (patients w));
  unique_patient_ids : NoDup (map Patient.id (patients w));
  fresh_patient_id :
    Forall (fun p => Patient.id p < next_patient_id w) (patients w);
  unique_message_ids : NoDup (map Message.id (messages w));
  fresh_message_id :
    Forall (fun m => Message.id m < next_message_id w) (messages w)
}.

(** The rows of the patients table other than the one of [phone]. *)
Definition other_patients (phone : string) (w : World) : list Patient.t :=
  filter (fun p => Patient.phone_number p <> phone) (patients w).

(** The frame of a turn for the patient [phone], as an invariant: the
    rows of other patients, the transcript so far and the log so far. *)
Definition turn_frame_of (phone : string) (w0 w : World) : Prop :=
  other_patients phone w = other_patients phone w0
  /\ messages w0 `prefix_of` messages w
  /\ calls w0 `prefix_of` calls w
  /\ (length (patients w0) <= length (patients w))%nat.


(** Detection that always answers [en]. *)
Definition detects_en : LanguageDetector :=
  fun _ => {[ "language" := "en" ]}.

Definition env_en : Env :=
  MkEnv detects_en translator_works None None "".

(** ** [backend/routes/whatsapp.py]: the sender of a webhook call *)

(** [s[n:]] *)
Fixpoint drop_chars (n : nat) (s : string) : string :=
  match n, s with
  | O, _ => s
  | S n', String _ s' => drop_chars n' s'
  | S _, EmptyString => EmptyString
  end.

(** [s.partition(sep)] for a non-empty [sep]: what stands before and
    after the first occurrence of [sep], if there is one. *)
Fixpoint partition (sep s : string) : option (string * string) :=
  if startswith s sep then Some (EmptyString, drop_chars (String.length sep) s)
  else
    match s with
    | EmptyString => None
    | String c s' =>
        match partition sep s' with
        | Some (before, after) => Some (String c before, after)
        | None => None
        end
    end.

(** [s.split(sep)] cuts at the occurrences of [sep] from left to right.
    Every cut removes at least one character, so [fuel] cuts are enough
    for a string of [fuel] characters. *)
Fixpoint split_fuel (fuel : nat) (sep s : string) : list string :=
  match fuel with
  | O => [s]
  | S fuel' =>
      match partition sep s with
      | Some (before, after) => before :: split_fuel fuel' sep after
      | None => [s]
      end
  end.

(** [s.split(sep)]; an empty separator is a [ValueError]. *)
Definition split (sep s : string) : result (list string) :=
  if negb (truthy sep) then Raise (Exn OtherException "empty separator")
  else Ok (split_fuel (String.length s) sep s).

(** [l[i]], raising [IndexError]. *)
Definition list_getitem (l : list string) (i : nat) : result string :=
  match l !! i with
  | Some x => Ok x
  | None => Raise (Exn OtherException "list index out of range")
  end.

(** [From.split('whatsapp:')[1] if 'whatsapp:' in From else From] *)
Definition webhook_patient_phone (From_ : string) : result string :=
  if contains "whatsapp:" From_ then
    match split "whatsapp:" From_ with
    | Ok parts => list_getitem parts 1
    | Raise e => Raise e
    end
  else Ok From_.

(** ** Set-up: the Twilio client and the LLM chain *)

(** Truth value of [os.getenv(...)]: unset and empty are false. *)
Definition getenv_truthy (v : option string) : bool :=
  match v with Some s => truthy s | None => false end.

(** The module-level [client] of [utils/whatsapp.py]: [None] unless the
    three settings are there and [Client(sid, token)] does not raise. *)
Definition init_client
    (TWILIO_ACCOUNT_SID TWILIO_AUTH_TOKEN TWILIO_WHATSAPP_NUMBER : option string)
    (Client : string -> string -> result TwilioClient) : option TwilioClient :=
  if negb (getenv_truthy TWILIO_ACCOUNT_SID && getenv_truthy TWILIO_AUTH_TOKEN
           && getenv_truthy TWILIO_WHATSAPP_NUMBER)
  then None
  else
    match Client (default "" TWILIO_ACCOUNT_SID) (default "" TWILIO_AUTH_TOKEN)
    with
    | Ok client => Some client
    | Raise _ => None
    end.

(** [CoordinatorAgent.__init__]: the value of [self.llm_chain].
    [LLMChain] stands for building [LLMChain(llm=ChatAnthropic(...),
    prompt=INTENT_PROMPT)], which gives the chain or raises. *)
Definition CoordinatorAgent_init (ANTHROPIC_API_KEY : option string)
    (LLMChain : result (string -> result string))
  : result (option (string -> result string)) :=
  if negb (getenv_truthy ANTHROPIC_API_KEY)
     || contains "your_claude_api_key" (default "" ANTHROPIC_API_KEY)
  then Ok None
  else
    match LLMChain with
    | Ok chain => Ok (Some chain)
    | Raise e => Raise e
    end.

(** The three labels of the keyword fallback and their replies. *)
Definition FALLBACK_LABELS : list string :=
  [ "book_appointment"; "greeting"; "unclear" ].

(** ** [backend/routes/patients.py]: registering and reading a patient *)

(** What a route answers: a value, an [HTTPException], or another
    exception that leaves the route. *)
Inductive http_result (A : Type) :=
| Http_ok (a : A)
| HTTPException (status_code : Z) (detail : string)
| Unhandled (e : exn).
Arguments Http_ok {A} a.
Arguments HTTPException {A} status_code detail.
Arguments Unhandled {A} e.

(** The request body [PatientCreate], after validation: [language] is
    ['en'] when the request left it out, and [None] when the request
    gave [null]. *)
Module PatientCreate.
Record t := Build {
  phone_number : string;
  name : option string;
  language : option string
}.
End PatientCreate.

Definition create_patient (patient : PatientCreate.t) (w : World)
  : http_result Patient.t * World :=
  match query_patient (PatientCreate.phone_number patient) w with
  | Some _ =>
      (HTTPException 400 "Patient with this phone number already registered.",
       w)
  | None =>
      (* [Column(String(10), default='en')]: a [language] that is [None]
         is left out of the INSERT, and the column default is stored. *)
      let language := Some (default "en" (PatientCreate.language patient)) in
      let db_patient :=
        Patient.Build (next_patient_id w) (PatientCreate.phone_number patient)
                      (PatientCreate.name patient) language in
      match commit w (PatientRow (PatientCreate.phone_number patient)
                                 (PatientCreate.name patient) language) with
      | Ok _ =>
          (Http_ok db_patient,
           MkWorld (patients w ++ [db_patient]) (messages w)
                   (next_patient_id w + 1) (next_message_id w) (calls w)
                   (commit w))
      | Raise e => (Unhandled e, w)
      end
  end.


(** A patient registered through the API, under a name, with French. *)
Definition patient_request : PatientCreate.t :=
  PatientCreate.Build "+100" (Some "Amina") (Some "fr").


(** * Properties *)

(** ** The adapters never raise *)

Lemma translate_text_returns translator text dest_lang source_lang :
  exists d, translate_text translator text dest_lang source_lang = Ok d.
Proof.
  unfold translate_text.
  destruct (negb (value_truthy text) || negb (is_str text)); [eauto|].
  destruct text as [| | |s| |]; eauto.
  destruct (translator source_lang dest_lang s) as [[t|]|e]; cbn.
  - destruct (truthy t); eauto.
  - eauto.
  - destruct (exn_cls e); eauto.
Qed.

Lemma classify_intent_returns llm message :
  exists label, classify_intent llm message = Ok label.
Proof.
  unfold classify_intent. destruct llm as [run|].
  - destruct (run message); cbn; eauto.
  - repeat case_match; eauto.
Qed.

Lemma send_whatsapp_message_returns c from to_number body :
  exists s, send_whatsapp_message c from to_number body = Ok s.
Proof.
  unfold send_whatsapp_message. destruct c as [messages_create|]; [|eauto].
  destruct (messages_create _ _ _); cbn; eauto.
Qed.

(** ** The patient directory *)

Lemma query_patient_patients phone w w' :
  patients w' = patients w -> query_patient phone w' = query_patient phone w.
Proof. unfold query_patient. by intros ->. Qed.

Lemma find_phone_number phone rows p :
  find (fun p => String.eqb (Patient.phone_number p) phone) rows = Some p ->
  Patient.phone_number p = phone.
Proof.
  intros H. apply find_some in H as [_ H]. by apply String.eqb_eq.
Qed.

Lemma find_new_patient phone rows p :
  find (fun p => String.eqb (Patient.phone_number p) phone) rows = None ->
  Patient.phone_number p = phone ->
  find (fun p => String.eqb (Patient.phone_number p) phone) (rows ++ [p])
  = Some p.
Proof.
  intros Hnone Hp. induction rows as [|q rows IH]; cbn in *.
  - by rewrite Hp, String.eqb_refl.
  - destruct (String.eqb (Patient.phone_number q) phone); [done|auto].
Qed.

Lemma find_update_patient phone language rows p :
  find (fun p => String.eqb (Patient.phone_number p) phone) rows = Some p ->
  find (fun p => String.eqb (Patient.phone_number p) phone)
       (update_patient phone language rows)
  = Some (with_language language p).
Proof.
  induction rows as [|q rows IH]; cbn; [done|].
  destruct (String.eqb (Patient.phone_number q) phone) eqn:E; cbn.
  - intros [= ->]. by rewrite E.
  - rewrite E. auto.
Qed.

Lemma length_update_patient phone language rows :
  length (update_patient phone language rows) = length rows.
Proof.
  induction rows as [|q rows IH]; cbn; [done|].
  destruct (String.eqb _ _); cbn; auto.
Qed.

(** What a call of [get_or_create_patient] that returns has done to the
    store. *)
Lemma get_or_create_patient_spec phone language w p w' :
  get_or_create_patient phone language w = (Ok p, w') ->
  query_patient phone w' = Some p
  /\ Patient.phone_number p = phone
  /\ Patient.language p = Some language
  /\ messages w' = messages w
  /\ next_message_id w' = next_message_id w
  /\ commit w' = commit w
  /\ (exists evs, calls w' = calls w ++ evs
                  /\ Forall quiet evs)
  /\ match query_patient phone w with
     | None => patients w' = patients w ++ [p]
               /\ Patient.id p = next_patient_id w
     | Some p0 => Patient.id p = Patient.id p0
                  /\ length (patients w') = length (patients w)
                  /\ (Patient.language p0 = Some language -> w' = w /\ p = p0)
     end.
Proof.
  unfold get_or_create_patient.
  destruct (query_patient phone w) as [p0|] eqn:Hq.
  - pose proof (find_phone_number _ _ _ Hq) as Hph.
    destruct (bool_decide (Patient.language p0 = Some language)) eqn:Hl;
      cbn [negb].
    + apply bool_decide_eq_true in Hl. intros [= <- <-].
      repeat split; auto.
      exists []. by rewrite app_nil_r.
    + apply bool_decide_eq_false in Hl.
      destruct (commit w _); [|done]. intros [= <- <-].
      cbn. repeat split; auto.
      * unfold query_patient in *; cbn. by apply find_update_patient.
      * eexists [_]. split; [reflexivity|]. by repeat constructor.
      * apply length_update_patient.
      * done.
      * done.
  - destruct (commit w _); [|done]. intros [= <- <-]. cbn. repeat split.
    + unfold query_patient in *; cbn. by apply find_new_patient.
    + eexists [_]. split; [reflexivity|]. by repeat constructor.
Qed.

(** A call of [get_or_create_patient] raises what the database answered
    to the row it wrote, and leaves the store as it was. *)
Lemma get_or_create_patient_raises phone language w e w' :
  get_or_create_patient phone language w = (Raise e, w') ->
  w' = w
  /\ exists r, patient_row phone language w = Some r /\ commit w r = Raise e.
Proof.
  unfold get_or_create_patient, patient_row.
  destruct (query_patient phone w) as [p0|].
  - destruct (bool_decide (Patient.language p0 = Some language)); cbn [negb];
      [done|].
    destruct (commit w _) eqn:Hc; [done|]. intros [= <- <-]. eauto.
  - destruct (commit w _) eqn:Hc; [done|]. intros [= <- <-]. eauto.
Qed.

(** It returns when the database takes the row, if there is one. *)
Lemma get_or_create_patient_returns phone language w :
  (forall r, patient_row phone language w = Some r -> commit w r = Ok tt) ->
  exists p w', get_or_create_patient phone language w = (Ok p, w').
Proof.
  intros Hrow.
  destruct (get_or_create_patient phone language w) as [[p|e] w'] eqn:H;
    [eauto|].
  apply get_or_create_patient_raises in H as (_ & r & Hr & Hc).
  rewrite (Hrow r Hr) in Hc. discriminate Hc.
Qed.

(** A known patient with the language on record is returned as it is. *)
Lemma get_or_create_patient_known phone language w p0 :
  query_patient phone w = Some p0 ->
  Patient.language p0 = Some language ->
  get_or_create_patient phone language w = (Ok p0, w).
Proof.
  intros Hq Hl. unfold get_or_create_patient. rewrite Hq.
  by rewrite bool_decide_eq_true_2.
Qed.

(** ** One turn *)

Ltac open_turn :=
  unfold process_message, call_detect_language, call_translate_text,
    call_classify_intent, call_send_whatsapp_message, log_message, emit, lift;
  unfold mbind, M_bind, mret, M_ret; cbn beta iota.

Ltac step := cbn beta iota delta [negb].

Ltac project_world Hen :=
  unfold inbound_record, outbound_record, translated_if_foreign,
    outbound_calls;
  cbn [messages patients calls next_message_id next_patient_id record_call
       fst snd];
  rewrite ?Hen; cbn [negb];
  rewrite <- ?app_assoc; cbn [app]; reflexivity.

(** The answer of the database to a row, in the shape of the outcomes. *)
Ltac row_answer Hen H :=
  unfold inbound_row, outbound_row, translated_if_foreign;
  rewrite ?Hen; cbn [negb]; exact H.

Lemma inbound_world env msg w :
  (if translates_inbound env msg
   then record_call (EvTranslate msg "en") (record_call (EvDetect msg) w)
   else record_call (EvDetect msg) w)
  = record_calls (inbound_calls env msg) w.
Proof. unfold inbound_calls. by destruct (translates_inbound env msg). Qed.

(** Step 7, once [final_response] is known. *)
Ltac close_turn Hin Hp Hci Hc Hout Hen :=
  let Hco := fresh "Hco" in
  let err := fresh "err" in
  lazymatch goal with
  | |- context [send_whatsapp_message ?c ?f ?t ?b] =>
      destruct (send_whatsapp_message_returns c f t b) as [? ->]
  end;
  step; cbn [commit record_call];
  match goal with
  | |- context [commit ?wx ?r] =>
      is_var wx; destruct (commit wx r) as [[]|err] eqn:Hco; step
  end;
  [ eapply turn_completes;
    [ exact Hin | exact Hp | row_answer Hen Hci | exact Hc | exact Hout
    | row_answer Hen Hco | reflexivity
    | project_world Hen | project_world Hen ]
  | eapply turn_outbound_record_refused;
    [ exact Hin | exact Hp | row_answer Hen Hci | exact Hc | exact Hout
    | row_answer Hen Hco | reflexivity
    | project_world Hen | project_world Hen ] ].

(** Step 6 raised. *)
Ltac abort_turn Hin Hp Hci Hc Hout Hen :=
  eapply turn_outbound_raises;
  [ exact Hin | exact Hp | row_answer Hen Hci | exact Hc | exact Hout
  | reflexivity | project_world Hen | project_world Hen ].

(** Steps 4 to 7, once the inbound record is stored. *)
Ltac answer_turn env msg Hin Hp Hci :=
  let Hc := fresh "Hc" in
  let Hen := fresh "Hen" in
  let Hout := fresh "Hout" in
  let Hd := fresh "Hd" in
  let Herr := fresh "Herr" in
  let Hget := fresh "Hget" in
  let intent := fresh "intent" in
  let back := fresh "back" in
  let err := fresh "err" in
  let final := fresh "final" in
  lazymatch goal with
  | |- context [classify_intent ?l ?m] =>
      destruct (classify_intent_returns l m) as [intent Hc];
      rewrite Hc; step
  end;
  destruct (String.eqb (source_lang_of env msg) "en") eqn:Hen; step;
  [ assert (outbound_text env (source_lang_of env msg)
                          (response_text_en intent)
            = Ok (response_text_en intent)) as Hout
      by (unfold outbound_text; by rewrite Hen);
    close_turn Hin Hp Hci Hc Hout Hen
  | destruct (translate_text (translator env) (VStr (response_text_en intent))
                             (source_lang_of env msg) "auto")
      as [back|err] eqn:Hd; step;
    [ destruct (negb (get_truthy back "error")) eqn:Herr; step;
      [ destruct (getitem back "translated_text") as [final|err] eqn:Hget;
        step;
        [ assert (outbound_text env (source_lang_of env msg)
                                (response_text_en intent) = Ok final) as Hout
            by (unfold outbound_text, translation_or;
                by rewrite Hen, Hd, Herr);
          close_turn Hin Hp Hci Hc Hout Hen
        | assert (outbound_text env (source_lang_of env msg)
                                (response_text_en intent) = Raise err) as Hout
            by (unfold outbound_text, translation_or;
                by rewrite Hen, Hd, Herr);
          abort_turn Hin Hp Hci Hc Hout Hen ]
      | assert (outbound_text env (source_lang_of env msg)
                              (response_text_en intent)
                = Ok (response_text_en intent)) as Hout
          by (unfold outbound_text, translation_or;
              by rewrite Hen, Hd, Herr);
        close_turn Hin Hp Hci Hc Hout Hen ]
    | assert (outbound_text env (source_lang_of env msg)
                            (response_text_en intent) = Raise err) as Hout
        by (unfold outbound_text, translation_or; by rewrite Hen, Hd);
      abort_turn Hin Hp Hci Hc Hout Hen ] ].

(** Steps 2 to 7, once [message_for_processing] is known. *)
Ltac continue_turn env msg Hin :=
  let patient := fresh "patient" in
  let w1 := fresh "w1" in
  let Hp := fresh "Hp" in
  let Hci := fresh "Hci" in
  let err := fresh "err" in
  lazymatch goal with
  | |- context [get_or_create_patient ?ph ?l ?w0] =>
      destruct (get_or_create_patient ph l w0) as [[patient|err] w1] eqn:Hp;
      step
  end;
  [ match goal with
    | |- context [commit ?wx ?r] =>
        is_var wx; destruct (commit wx r) as [[]|err] eqn:Hci; step
    end;
    [ answer_turn env msg Hin Hp Hci
    | eapply turn_inbound_record_refused; [exact Hin | exact Hp | exact Hci] ]
  | destruct (get_or_create_patient_raises _ _ _ _ _ Hp) as [-> _];
    eapply turn_patient_refused; [exact Hin | exact Hp] ].

(** Every run of [process_message] is one of the six outcomes. *)
Lemma process_message_outcome env msg phone w :
  turn_outcome env msg phone w
    (process_message env msg phone w).1 (process_message env msg phone w).2.
Proof.
  open_turn.
  fold (source_lang_of env msg). fold (translates_inbound env msg).
  pose proof (inbound_world env msg w) as HW.
  destruct (translates_inbound env msg) eqn:Ein; step.
  - destruct (translate_text (translator env) (VStr msg) "en" "auto")
      as [d|e] eqn:Ed; step.
    + destruct (negb (get_truthy d "error")) eqn:Eerr; step.
      * destruct (getitem d "translated_text") as [text|e] eqn:Eg; step.
        -- assert (inbound_text env msg = Ok text) as Hin.
           { unfold inbound_text, translation_or. by rewrite Ein, Ed, Eerr. }
           rewrite HW. continue_turn env msg Hin.
        -- rewrite HW. apply turn_inbound_raises.
           unfold inbound_text, translation_or. by rewrite Ein, Ed, Eerr.
      * assert (inbound_text env msg = Ok msg) as Hin.
        { unfold inbound_text, translation_or. by rewrite Ein, Ed, Eerr. }
        rewrite HW. continue_turn env msg Hin.
    + rewrite HW. apply turn_inbound_raises.
      unfold inbound_text, translation_or. by rewrite Ein, Ed.
  - assert (inbound_text env msg = Ok msg) as Hin.
    { unfold inbound_text. by rewrite Ein. }
    rewrite HW. continue_turn env msg Hin.
Qed.

Lemma process_message_inv env msg phone w r w' :
  process_message env msg phone w = (r, w') -> turn_outcome env msg phone w r w'.
Proof.
  intros H. pose proof (process_message_outcome env msg phone w) as Ho.
  by rewrite H in Ho.
Qed.

Lemma record_calls_frame evs w :
  patients (record_calls evs w) = patients w
  /\ messages (record_calls evs w) = messages w
  /\ next_patient_id (record_calls evs w) = next_patient_id w
  /\ next_message_id (record_calls evs w) = next_message_id w
  /\ calls (record_calls evs w) = calls w ++ evs
  /\ commit (record_calls evs w) = commit w.
Proof.
  unfold record_calls. revert w.
  induction evs as [|ev evs IH]; intros w; cbn.
  - by rewrite app_nil_r.
  - destruct (IH (record_call ev w)) as (-> & -> & -> & -> & -> & ->). cbn.
    by rewrite <- app_assoc.
Qed.

(** ** Rules for [keeps] *)

Lemma keeps_ret {A} I (a : A) : keeps I (mret a).
Proof. intros w r w' HI [= <- <-]. exact HI. Qed.

Lemma keeps_lift {A} I (x : result A) : keeps I (lift x).
Proof. intros w r w' HI [= <- <-]. exact HI. Qed.

Lemma keeps_bind {A B} I (m : M A) (k : A -> M B) :
  keeps I m -> (forall a, keeps I (k a)) -> keeps I (m ≫= k).
Proof.
  intros Hm Hk w r w' HI. unfold mbind, M_bind.
  destruct (m w) as [[a|e] w1] eqn:Hrun.
  - intros Hrest. exact (Hk a w1 r w' (Hm _ _ _ HI Hrun) Hrest).
  - intros [= <- <-]. exact (Hm _ _ _ HI Hrun).
Qed.

Lemma keeps_if {A} I (b : bool) (m1 m2 : M A) :
  keeps I m1 -> keeps I m2 -> keeps I (if b then m1 else m2).
Proof. by destruct b. Qed.

(** A turn keeps what its three writers keep. *)
Lemma process_message_keeps I env msg phone :
  (forall ev, keeps I (emit ev)) ->
  (forall language, keeps I (get_or_create_patient phone language)) ->
  (forall patient_id sender content translated_content lang,
     keeps I (log_message patient_id phone sender content translated_content
                          lang)) ->
  keeps I (process_message env msg phone).
Proof.
  intros Hemit Hdir Hlog.
  unfold process_message, call_detect_language, call_translate_text,
    call_classify_intent, call_send_whatsapp_message.
  repeat first
    [ apply keeps_bind; [|intros ?]
    | apply keeps_if
    | apply keeps_ret
    | apply keeps_lift
    | apply Hemit
    | apply Hdir
    | apply Hlog ].
Qed.

(** A turn does not change what the database accepts. *)
Lemma turn_keeps_commit env msg phone w r w' :
  process_message env msg phone w = (r, w') -> commit w' = commit w.
Proof.
  intros Hrun. assert (commit w = commit w) as HI by done. revert HI Hrun.
  apply (process_message_keeps (fun w' => commit w' = commit w)).
  - by intros ev w0 r0 w0' HI [= <- <-].
  - intros language w0 r0 w0' HI. unfold get_or_create_patient.
    repeat case_match; by intros [= <- <-].
  - intros ? ? ? ? ? w0 r0 w0' HI. unfold log_message.
    case_match; by intros [= <- <-].
Qed.

(** A turn that returns, seen from the store it started in. *)
Lemma completed_turn env msg phone w r w' :
  process_message env msg phone w = (Ok r, w') ->
  exists text patient w1 pev,
    let sl := source_lang_of env msg in
    let m_in := inbound_record w1 patient phone msg sl text in
    let m_out := outbound_record w1 patient phone (response r) sl
                                 (response_text_en (intent r)) in
    status r = "processed"
    /\ inbound_text env msg = Ok text
    /\ classify_intent (llm_chain env) text = Ok (intent r)
    /\ outbound_text env sl (response_text_en (intent r)) = Ok (response r)
    /\ query_patient phone w' = Some patient
    /\ Patient.language patient = Some sl
    /\ match query_patient phone w with
       | None => patients w' = patients w ++ [patient]
       | Some p0 => Patient.id patient = Patient.id p0
                    /\ length (patients w') = length (patients w)
       end
    /\ messages w' = messages w ++ [m_in; m_out]
    /\ Forall quiet pev
    /\ calls w' = calls w ++ inbound_calls env msg ++ pev
         ++ [EvLogMessage m_in; EvClassify text]
         ++ outbound_calls sl (response_text_en (intent r))
         ++ [EvSend phone (response r); EvLogMessage m_out]
    /\ commit w' = commit w
    /\ commit w (inbound_row patient phone msg sl text) = Ok tt
    /\ commit w (outbound_row patient phone (response r) sl
                              (response_text_en (intent r))) = Ok tt.
Proof.
  intros H. pose proof (turn_keeps_commit _ _ _ _ _ _ H) as Hkeep.
  apply process_message_inv in H.
  inversion H as [| | | |
                  |text patient w1 label final w'' Hin Hp Hci Hc Hout Hco Hpat
                     Hmsg Hcalls];
    subst.
  destruct (get_or_create_patient_spec _ _ _ _ _ Hp)
    as (Hq & _ & Hlang & Hm & _ & Hcm & (pev & Hev & Hquiet) & Hrows).
  destruct (record_calls_frame (inbound_calls env msg) w)
    as (Hfp & Hfm & Hfi & _ & Hfc & Hfk).
  rewrite Hcm, Hfk in Hci, Hco.
  exists text, patient, w1, pev. cbn [status intent response].
  repeat split; auto.
  - by rewrite (query_patient_patients phone w1 w').
  - rewrite (query_patient_patients phone w _ Hfp) in Hrows.
    destruct (query_patient phone w) as [p0|].
    + destruct Hrows as (? & ? & _). by rewrite Hpat, <- Hfp.
    + destruct Hrows as (? & _). by rewrite Hpat, <- Hfp.
  - by rewrite Hmsg, Hm, Hfm.
  - by rewrite Hcalls, Hev, Hfc, <- !app_assoc.
Qed.

(** A turn that raises, seen from the store it started in: where it
    stopped, what it raised, and what it had done by then. *)
Lemma raised_turn env msg phone w e w' :
  process_message env msg phone w = (Raise e, w') ->
  let sl := source_lang_of env msg in
  (inbound_text env msg = Raise e
   /\ calls w' = calls w ++ inbound_calls env msg
   /\ messages w' = messages w
   /\ patients w' = patients w)
  \/ (exists text row,
        inbound_text env msg = Ok text
        /\ patient_row phone sl w = Some row
        /\ commit w row = Raise e
        /\ calls w' = calls w ++ inbound_calls env msg
        /\ messages w' = messages w
        /\ patients w' = patients w)
  \/ (exists text patient w1 pev,
        inbound_text env msg = Ok text
        /\ get_or_create_patient phone sl
             (record_calls (inbound_calls env msg) w) = (Ok patient, w1)
        /\ Forall quiet pev
        /\ patients w' = patients w1
        /\ ((commit w (inbound_row patient phone msg sl text) = Raise e
             /\ calls w' = calls w ++ inbound_calls env msg ++ pev
             /\ messages w' = messages w)
            \/ (exists label,
                  let m_in := inbound_record w1 patient phone msg sl text in
                  classify_intent (llm_chain env) text = Ok label
                  /\ messages w' = messages w ++ [m_in]
                  /\ ((outbound_text env sl (response_text_en label) = Raise e
                       /\ calls w' = calls w ++ inbound_calls env msg ++ pev
                            ++ [EvLogMessage m_in; EvClassify text]
                            ++ outbound_calls sl (response_text_en label))
                      \/ (exists final,
                            outbound_text env sl (response_text_en label)
                            = Ok final
                            /\ commit w (outbound_row patient phone final sl
                                           (response_text_en label)) = Raise e
                            /\ calls w' = calls w ++ inbound_calls env msg
                                 ++ pev
                                 ++ [EvLogMessage m_in; EvClassify text]
                                 ++ outbound_calls sl (response_text_en label)
                                 ++ [EvSend phone final]))))).
Proof.
  intros H sl. apply process_message_inv in H.
  destruct (record_calls_frame (inbound_calls env msg) w)
    as (Hfp & Hfm & _ & _ & Hfc & Hfk).
  inversion H as [e' Hin
                 |text e' Hin Hp
                 |text patient w1 e' Hin Hp Hci
                 |text patient w1 label e' w'' Hin Hp Hci Hc Hout Hpat Hmsg
                    Hcalls
                 |text patient w1 label final e' w'' Hin Hp Hci Hc Hout Hco
                    Hpat Hmsg Hcalls
                 |]; subst.
  - left. by rewrite Hfc, Hfm, Hfp.
  - right; left.
    apply get_or_create_patient_raises in Hp as (_ & row & Hrow & Hraise).
    exists text, row. rewrite Hfc, Hfm, Hfp. repeat split; try done.
    + unfold patient_row in *.
      by rewrite (query_patient_patients phone w _ Hfp) in Hrow.
    + by rewrite <- Hfk.
  - right; right.
    destruct (get_or_create_patient_spec _ _ _ _ _ Hp)
      as (_ & _ & _ & Hm & _ & Hcm & (pev & Hev & Hquiet) & _).
    exists text, patient, w', pev. do 4 (split; [done|]). left.
    rewrite Hcm, Hfk in Hci. rewrite Hev, Hfc, Hm, Hfm, <- app_assoc.
    by repeat split.
  - right; right.
    destruct (get_or_create_patient_spec _ _ _ _ _ Hp)
      as (_ & _ & _ & Hm & _ & Hcm & (pev & Hev & Hquiet) & _).
    exists text, patient, w1, pev. do 4 (split; [done|]). right.
    exists label. cbn zeta. split; [done|].
    split; [by rewrite Hmsg, Hm, Hfm|]. left. split; [done|].
    by rewrite Hcalls, Hev, Hfc, <- !app_assoc.
  - right; right.
    destruct (get_or_create_patient_spec _ _ _ _ _ Hp)
      as (_ & _ & _ & Hm & _ & Hcm & (pev & Hev & Hquiet) & _).
    exists text, patient, w1, pev. do 4 (split; [done|]). right.
    exists label. cbn zeta. split; [done|].
    split; [by rewrite Hmsg, Hm, Hfm|]. right. exists final.
    rewrite Hcm, Hfk in Hco. do 2 (split; [done|]).
    by rewrite Hcalls, Hev, Hfc, <- !app_assoc.
Qed.

(** ** Translating or falling back *)

(** The only way steps 1 and 6 raise: the translator raised an exception
    other than [TranslationNotFound] whose [str] is empty, so that the
    [error] entry of the result is false and [translated_text] is missing. *)
Lemma translation_or_raises tr text dest_lang fallback e :
  translation_or tr text dest_lang fallback = Raise e ->
  e = Exn KeyError "'translated_text'"
  /\ exists e0, tr "auto" dest_lang text = Raise e0
                /\ exn_cls e0 <> TranslationNotFound
                /\ exn_str e0 = "".
Proof.
  unfold translation_or, translate_text.
  destruct (negb (value_truthy (VStr text)) || negb (is_str (VStr text)));
    [done|].
  unfold try_except, get_truthy, getitem.
  destruct (tr "auto" dest_lang text) as [[t|]|e0]; cbn beta iota.
  - destruct (truthy t).
    + rewrite lookup_insert_ne, lookup_insert_ne, lookup_singleton_ne by done.
      cbn [negb]. by rewrite lookup_insert_eq.
    + rewrite lookup_singleton_eq. by cbn.
  - rewrite lookup_singleton_eq. by cbn.
  - destruct (exn_cls e0) eqn:Hcls; rewrite lookup_singleton_eq;
      cbn [truthy negb String.append]; try done.
    all: destruct (exn_str e0) eqn:Hstr; cbn [truthy negb]; [|done];
      rewrite lookup_singleton_ne by done; intros [= <-];
      split; [done|]; exists e0; by rewrite Hcls.
Qed.

(** A translation whose result has a true [error] entry is replaced by
    the fallback. *)
Lemma translation_or_fallback tr text dest_lang fallback d :
  translate_text tr (VStr text) dest_lang "auto" = Ok d ->
  get_truthy d "error" = true ->
  translation_or tr text dest_lang fallback = Ok fallback.
Proof. unfold translation_or. by intros -> ->. Qed.

Lemma translation_or_reported tr text dest_lang fallback :
  reports_failures tr ->
  exists v, translation_or tr text dest_lang fallback = Ok v.
Proof.
  intros Hrep.
  destruct (translation_or tr text dest_lang fallback) as [v|e] eqn:H;
    [eauto|].
  apply translation_or_raises in H as (_ & e0 & Hraise & Hcls & Hstr).
  destruct (Hrep _ _ _ _ Hraise); congruence.
Qed.

(** A turn returns when neither translation leg raises and the database
    takes the rows. *)
Lemma turn_returns env msg phone w :
  accepting w ->
  (forall e, inbound_text env msg <> Raise e) ->
  (forall label e,
     outbound_text env (source_lang_of env msg) (response_text_en label)
     <> Raise e) ->
  exists r w', process_message env msg phone w = (Ok r, w').
Proof.
  intros Hacc Hin Hout.
  destruct (process_message env msg phone w) as [r w'] eqn:H.
  apply process_message_inv in H.
  destruct (record_calls_frame (inbound_calls env msg) w)
    as (_ & _ & _ & _ & _ & Hfk).
  inversion H as [e Hin'
                 |text e Hin' Hp
                 |text patient w1 e Hin' Hp Hci
                 |text patient w1 label e w'' Hin' Hp Hci Hc Hout'
                 |text patient w1 label final e w'' Hin' Hp Hci Hc Hout' Hco
                 |]; subst.
  - by destruct (Hin e).
  - apply get_or_create_patient_raises in Hp as (_ & r0 & _ & Hr).
    rewrite Hfk, Hacc in Hr. discriminate Hr.
  - apply get_or_create_patient_spec in Hp
      as (_ & _ & _ & _ & _ & Hcm & _).
    rewrite Hcm, Hfk, Hacc in Hci. discriminate Hci.
  - by edestruct Hout.
  - apply get_or_create_patient_spec in Hp
      as (_ & _ & _ & _ & _ & Hcm & _).
    rewrite Hcm, Hfk, Hacc in Hco. discriminate Hco.
  - eauto.
Qed.

(** A turn returns when steps 1 and 6 give a text and the database
    takes the rows of step 2, 3 and 7. *)
Lemma turn_runs env msg phone w text patient w1 label final :
  inbound_text env msg = Ok text ->
  get_or_create_patient phone (source_lang_of env msg)
    (record_calls (inbound_calls env msg) w) = (Ok patient, w1) ->
  commit w (inbound_row patient phone msg (source_lang_of env msg) text)
  = Ok tt ->
  classify_intent (llm_chain env) text = Ok label ->
  outbound_text env (source_lang_of env msg) (response_text_en label)
  = Ok final ->
  commit w (outbound_row patient phone final (source_lang_of env msg)
                         (response_text_en label)) = Ok tt ->
  exists w',
    process_message env msg phone w
    = (Ok (MkTurnResult "processed" label final), w')
    /\ patients w' = patients w1
    /\ messages w' = messages w1
         ++ [inbound_record w1 patient phone msg (source_lang_of env msg) text;
             outbound_record w1 patient phone final (source_lang_of env msg)
                             (response_text_en label)]
    /\ calls w' = calls w1
         ++ [EvLogMessage
               (inbound_record w1 patient phone msg (source_lang_of env msg)
                               text);
             EvClassify text]
         ++ outbound_calls (source_lang_of env msg) (response_text_en label)
         ++ [EvSend phone final;
             EvLogMessage
               (outbound_record w1 patient phone final (source_lang_of env msg)
                                (response_text_en label))].
Proof.
  intros Hin Hp Hci Hc Hout Hco.
  destruct (process_message env msg phone w) as [r w'] eqn:H.
  apply process_message_inv in H.
  destruct (record_calls_frame (inbound_calls env msg) w)
    as (_ & _ & _ & _ & _ & Hfk).
  pose proof (get_or_create_patient_spec _ _ _ _ _ Hp)
    as (_ & _ & _ & _ & _ & Hcm & _).
  rewrite <- Hfk, <- Hcm in Hci, Hco.
  inversion H as [e Hin'
                 |text' e Hin' Hp'
                 |text' patient' w1' e Hin' Hp' Hci'
                 |text' patient' w1' label' e w'' Hin' Hp' Hci' Hc' Hout'
                 |text' patient' w1' label' final' e w'' Hin' Hp' Hci' Hc'
                    Hout' Hco'
                 |text' patient' w1' label' final' w'' Hin' Hp' Hci' Hc'
                    Hout' Hco' Hpat Hmsg Hcalls]; subst r;
    try (pose proof (eq_trans (eq_sym Hp) Hp') as [= <- <-]);
    try congruence.
  rewrite Hin in Hin'. injection Hin' as <-.
  rewrite Hc in Hc'. injection Hc' as <-.
  rewrite Hout in Hout'. injection Hout' as <-.
  eauto.
Qed.


Lemma response_text_en_not_empty label : response_text_en label <> "".
Proof.
  unfold response_text_en. by repeat case_match.
Qed.

(** ** The claims *)

(** C9. [translate_text] is total: for every input it returns a dict and
    never raises, and for an empty or a non-string input the dict carries
    the [error] entry ["Invalid input text for translation."]. *)
Theorem translate_text_total translator text dest_lang source_lang :
  exists d,
    translate_text translator text dest_lang source_lang = Ok d
    /\ (value_truthy text = false \/ is_str text = false ->
        d !! "error" = Some "Invalid input text for translation.").
Proof.
  destruct (translate_text_returns translator text dest_lang source_lang)
    as [d Hd].
  exists d. split; [exact Hd|].
  intros Hbad. unfold translate_text in Hd.
  assert (negb (value_truthy text) || negb (is_str text) = true) as Hguard.
  { destruct Hbad as [-> | ->]; [done|]. apply orb_true_r. }
  rewrite Hguard in Hd. injection Hd as <-.
  apply lookup_singleton_eq.
Qed.



(** C2, as the code has it.  [classify_intent] never raises.  Without an
    LLM chain the label is one of [book_appointment], [greeting] and
    [unclear]; when the chain raises the label is [unclear]; when the
    chain answers, the label is the answer stripped and lower-cased,
    whether or not it is one of the labels of the prompt.  So a label
    outside the prompt's list is always an answer of the chain. *)
Theorem classify_intent_label llm message :
  exists label,
    classify_intent llm message = Ok label
    /\ (llm = None -> In label ["book_appointment"; "greeting"; "unclear"])
    /\ (forall run e, llm = Some run -> run message = Raise e ->
        label = "unclear")
    /\ (forall run answer, llm = Some run -> run message = Ok answer ->
        label = lower (strip answer))
    /\ (In label INTENT_LABELS
        \/ exists run answer,
             llm = Some run /\ run message = Ok answer
             /\ label = lower (strip answer)).
Proof.
  unfold classify_intent. destruct llm as [run|].
  - destruct (run message) as [answer|e] eqn:Hrun; cbn.
    + exists (lower (strip answer)). repeat split; try done.
      * intros ? ? [= <-]. by rewrite Hrun.
      * intros ? ? [= <-]. rewrite Hrun. by intros [= <-].
      * right. by exists run, answer.
    + exists "unclear". repeat split; try done.
      * intros ? ? [= <-]. by rewrite Hrun.
      * left. cbn. tauto.
  - repeat case_match; eexists; (split; [reflexivity|]);
      (split; [intros _; cbn; tauto|]); (do 2 (split; [done|]));
      left; cbn; tauto.
Qed.

(** C2 as stated fails: a chain that answers outside the list gets its
    answer back as the label. *)
Lemma classify_intent_outside_labels :
  classify_intent (Some llm_chatty) "hello" = Ok "i am not sure."
  /\ ~ In "i am not sure." INTENT_LABELS.
Proof.
  split; [reflexivity|].
  unfold INTENT_LABELS. cbn. intros H.
  repeat (destruct H as [H|H]; [discriminate H|]). exact H.
Qed.


Lemma inbound_calls_unlogged env msg :
  Forall (fun ev => is_log_or_classify ev = false) (inbound_calls env msg).
Proof.
  unfold inbound_calls. destruct (translates_inbound env msg);
    by repeat constructor.
Qed.

Lemma outbound_calls_unlogged source_lang text_en :
  Forall (fun ev => is_log_or_classify ev = false)
         (outbound_calls source_lang text_en).
Proof.
  unfold outbound_calls. destruct (negb _); by repeat constructor.
Qed.

Lemma quiet_unlogged evs :
  Forall quiet evs -> Forall (fun ev => is_log_or_classify ev = false) evs.
Proof.
  intros H. eapply Forall_impl; [exact H|]. by intros ev (_ & _ & ?).
Qed.

(** C4. A turn that returns has appended exactly two records, the
    patient's message and then the coordinator's reply, both in the
    session named by the phone number, both for the patient found under
    that number, and both tagged with the detected language; the first is
    logged before the intent is classified and the second after. *)
Theorem transcript_pairing env msg phone w r w' :
  process_message env msg phone w = (Ok r, w') ->
  exists m_in m_out patient text before between,
    messages w' = messages w ++ [m_in; m_out]
    /\ Message.sender m_in = "patient"
    /\ Message.sender m_out = "coordinator"
    /\ Message.content m_in = msg
    /\ Message.content m_out = response r
    /\ Message.session_id m_in = phone
    /\ Message.session_id m_out = phone
    /\ Message.language m_in = Some (source_lang_of env msg)
    /\ Message.language m_out = Some (source_lang_of env msg)
    /\ query_patient phone w' = Some patient
    /\ Message.patient_id m_in = Patient.id patient
    /\ Message.patient_id m_out = Patient.id patient
    /\ calls w' = calls w ++ before
         ++ [EvLogMessage m_in; EvClassify text]
         ++ between ++ [EvLogMessage m_out]
    /\ classify_intent (llm_chain env) text = Ok (intent r)
    /\ Forall (fun ev => is_log_or_classify ev = false) (before ++ between).
Proof.
  intros H.
  destruct (completed_turn _ _ _ _ _ _ H)
    as (text & patient & w1 & pev & _ & _ & Hc & _ & Hq & _ & _ & Hm
        & Hquiet & Hcalls & _).
  eexists _, _, patient, text, (inbound_calls env msg ++ pev),
    (outbound_calls (source_lang_of env msg) (response_text_en (intent r))
     ++ [EvSend phone (response r)]).
  split; [exact Hm|].
  cbn [inbound_record outbound_record Message.sender Message.content
       Message.session_id Message.language Message.patient_id].
  repeat split; try done.
  - by rewrite Hcalls, <- !app_assoc.
  - repeat apply Forall_app_2;
      auto using inbound_calls_unlogged, outbound_calls_unlogged,
        quiet_unlogged.
Qed.

Lemma transcript_pairing_witness :
  process_message env_sw "Nataka kuweka miadi" "+100" empty_world
  = (Ok (MkTurnResult "processed" "book_appointment" "Naweza kusaidia."),
     (process_message env_sw "Nataka kuweka miadi" "+100" empty_world).2)
  /\ exists m_in m_out patient text before between,
    messages (process_message env_sw "Nataka kuweka miadi" "+100" empty_world).2
    = messages empty_world ++ [m_in; m_out]
    /\ Message.sender m_in = "patient"
    /\ Message.sender m_out = "coordinator"
    /\ Message.content m_in = "Nataka kuweka miadi"
    /\ Message.content m_out = "Naweza kusaidia."
    /\ Message.session_id m_in = "+100"
    /\ Message.session_id m_out = "+100"
    /\ Message.language m_in = Some (source_lang_of env_sw "Nataka kuweka miadi")
    /\ Message.language m_out = Some (source_lang_of env_sw "Nataka kuweka miadi")
    /\ query_patient "+100"
         (process_message env_sw "Nataka kuweka miadi" "+100" empty_world).2
       = Some patient
    /\ Message.patient_id m_in = Patient.id patient
    /\ Message.patient_id m_out = Patient.id patient
    /\ calls (process_message env_sw "Nataka kuweka miadi" "+100" empty_world).2
       = calls empty_world ++ before
         ++ [EvLogMessage m_in; EvClassify text]
         ++ between ++ [EvLogMessage m_out]
    /\ classify_intent (llm_chain env_sw) text = Ok "book_appointment"
    /\ Forall (fun ev => is_log_or_classify ev = false) (before ++ between).
Proof.
  split; [vm_compute; reflexivity|].
  apply (transcript_pairing env_sw "Nataka kuweka miadi" "+100" empty_world
           (MkTurnResult "processed" "book_appointment" "Naweza kusaidia.")).
  vm_compute; reflexivity.
Defined.

(** C1, as the code has it.  The two records of a turn that returns carry
    a [translated_content] exactly when the detected language is not
    [en]: the patient's record then holds the text handed to intent
    classification and the reply's record holds the English reply; with
    [en] both are absent. *)
Theorem translated_content_by_language env msg phone w r w' :
  process_message env msg phone w = (Ok r, w') ->
  exists m_in m_out text,
    messages w' = messages w ++ [m_in; m_out]
    /\ Message.content m_in = msg
    /\ Message.content m_out = response r
    /\ inbound_text env msg = Ok text
    /\ classify_intent (llm_chain env) text = Ok (intent r)
    /\ (source_lang_of env msg = "en" ->
        Message.translated_content m_in = None
        /\ Message.translated_content m_out = None)
    /\ (source_lang_of env msg <> "en" ->
        Message.translated_content m_in = Some text
        /\ Message.translated_content m_out
           = Some (response_text_en (intent r))).
Proof.
  intros H.
  destruct (completed_turn _ _ _ _ _ _ H)
    as (text & patient & w1 & pev & _ & Hin & Hc & _ & _ & _ & _ & Hm & _).
  eexists _, _, text. split; [exact Hm|].
  cbn [inbound_record outbound_record Message.content
       Message.translated_content].
  unfold translated_if_foreign.
  do 4 (split; [done|]).
  split; [intros Hen%String.eqb_eq | intros Hne%String.eqb_neq].
  - by rewrite Hen.
  - by rewrite Hne.
Qed.

Lemma translated_content_by_language_witness :
  process_message env_sw "Nataka kuweka miadi" "+100" empty_world
  = (Ok (MkTurnResult "processed" "book_appointment" "Naweza kusaidia."),
     (process_message env_sw "Nataka kuweka miadi" "+100" empty_world).2)
  /\ exists m_in m_out text,
    messages (process_message env_sw "Nataka kuweka miadi" "+100" empty_world).2
    = messages empty_world ++ [m_in; m_out]
    /\ Message.content m_in = "Nataka kuweka miadi"
    /\ Message.content m_out = "Naweza kusaidia."
    /\ inbound_text env_sw "Nataka kuweka miadi" = Ok text
    /\ classify_intent (llm_chain env_sw) text = Ok "book_appointment"
    /\ (source_lang_of env_sw "Nataka kuweka miadi" = "en" ->
        Message.translated_content m_in = None
        /\ Message.translated_content m_out = None)
    /\ (source_lang_of env_sw "Nataka kuweka miadi" <> "en" ->
        Message.translated_content m_in = Some text
        /\ Message.translated_content m_out
           = Some (response_text_en "book_appointment")).
Proof.
  split; [vm_compute; reflexivity|].
  apply (translated_content_by_language env_sw "Nataka kuweka miadi" "+100"
           empty_world
           (MkTurnResult "processed" "book_appointment" "Naweza kusaidia.")).
  vm_compute; reflexivity.
Defined.

(** C1 as stated fails: Swahili is detected, the translation fails, and
    both records store a [translated_content] equal to their [content]. *)
Lemma translated_content_equal_to_content :
  exists r w' m_in m_out,
    process_message env_sw_not_found "Nataka kuweka miadi" "+100" empty_world
    = (Ok r, w')
    /\ messages w' = [m_in; m_out]
    /\ Message.content m_in = "Nataka kuweka miadi"
    /\ Message.translated_content m_in = Some "Nataka kuweka miadi"
    /\ Message.translated_content m_out = Some (Message.content m_out).
Proof.
  eexists _, _, _, _. split; [vm_compute; reflexivity|].
  repeat split.
Qed.

Lemma inbound_calls_untranslated env msg :
  translates_inbound env msg = false ->
  Forall (fun ev => is_translate ev = false) (inbound_calls env msg).
Proof. unfold inbound_calls. intros ->. by repeat constructor. Qed.

Lemma quiet_untranslated evs :
  Forall quiet evs -> Forall (fun ev => is_translate ev = false) evs.
Proof.
  intros H. eapply Forall_impl; [exact H|]. by intros ev (? & _).
Qed.




(** C6 fails on these two turns.  The first message is detected as [en]
    and creates the patient with [en] on record.  The second is detected
    as [sw]; its translation to English makes the translator raise an
    exception without a message, [translate_text] answers
    [{"error": ""}], and the turn raises [KeyError] in step 1, before the
    patient is looked up: after the turn the record still says [en]. *)
Theorem language_drift_lost :
  (process_message env_drift_unreported "hello" "+100" empty_world).1
  = Ok (MkTurnResult "processed" "greeting" (response_text_en "greeting"))
  /\ source_lang_of env_drift_unreported "hello" = "en"
  /\ query_patient "+100"
       (process_message env_drift_unreported "hello" "+100" empty_world).2
     = Some (Patient.Build 1 "+100" None (Some "en"))
  /\ source_lang_of env_drift_unreported "Habari" = "sw"
  /\ translate_text (translator env_drift_unreported) (VStr "Habari") "en"
       "auto"
     = Ok {[ "error" := "" ]}
  /\ (process_message env_drift_unreported "Habari" "+100"
        (process_message env_drift_unreported "hello" "+100" empty_world).2).1
     = Raise (Exn KeyError "'translated_text'")
  /\ query_patient "+100"
       (process_message env_drift_unreported "Habari" "+100"
          (process_message env_drift_unreported "hello" "+100"
             empty_world).2).2
     = Some (Patient.Build 1 "+100" None (Some "en")).
Proof. repeat split; vm_compute; reflexivity. Qed.


Lemma accepting_empty_world : accepting empty_world.
Proof. by intros r. Qed.



(** ** When a translation fails *)

Lemma translation_or_ok tr text dest_lang fallback v :
  translation_or tr text dest_lang fallback = Ok v ->
  exists d,
    translate_text tr (VStr text) dest_lang "auto" = Ok d
    /\ (get_truthy d "error" = true /\ v = fallback
        \/ get_truthy d "error" = false /\ d !! "translated_text" = Some v).
Proof.
  unfold translation_or.
  destruct (translate_text tr (VStr text) dest_lang "auto") as [d|] eqn:Hd;
    [|done].
  intros H. exists d. split; [done|].
  destruct (get_truthy d "error"); cbn [negb] in *.
  - left. by injection H as <-.
  - right. split; [done|]. unfold getitem in H.
    destruct (d !! "translated_text"); [|done]. by injection H as ->.
Qed.

(** A [translated_text] entry is never empty, and comes without an
    [error] entry. *)
Lemma translate_text_translated tr text dest_lang source_lang d v :
  translate_text tr text dest_lang source_lang = Ok d ->
  d !! "translated_text" = Some v ->
  v <> "" /\ d !! "error" = None.
Proof.
  unfold translate_text.
  destruct (negb (value_truthy text) || negb (is_str text));
    [by intros [= <-]|].
  destruct text as [| | |s| |]; try by intros [= <-].
  unfold try_except.
  destruct (tr source_lang dest_lang s) as [[t|]|e]; cbn beta iota.
  - destruct (truthy t) eqn:Ht; [|by intros [= <-]].
    intros [= <-]. rewrite lookup_insert_eq. intros [= <-].
    split; [by destruct t|].
    by rewrite lookup_insert_ne, lookup_insert_ne, lookup_singleton_ne.
  - by intros [= <-].
  - destruct (exn_cls e); by intros [= <-].
Qed.

(** The reply of a turn that returns is never empty. *)
Lemma response_not_empty env msg phone w r w' :
  process_message env msg phone w = (Ok r, w') -> response r <> "".
Proof.
  intros H.
  destruct (completed_turn _ _ _ _ _ _ H)
    as (text & patient & w1 & pev & _ & _ & _ & Hout & _).
  unfold outbound_text in Hout.
  destruct (negb _).
  - apply translation_or_ok in Hout
      as (d & Hd & [[_ ->] | [_ Htr]]).
    + apply response_text_en_not_empty.
    + by destruct (translate_text_translated _ _ _ _ _ _ Hd Htr).
  - injection Hout as <-. apply response_text_en_not_empty.
Qed.

(** Fallback safety, for a translator that reports its failures and a
    database that takes every row: when detection reports an error the
    turn returns, the text classified is the inbound text itself, and the
    reply is not empty. *)
Lemma degrades_when_failures_reported env msg phone w :
  get_truthy (detect_language env msg) "error" = true ->
  reports_failures (translator env) ->
  accepting w ->
  exists r w',
    process_message env msg phone w = (Ok r, w')
    /\ inbound_text env msg = Ok msg
    /\ classify_intent (llm_chain env) msg = Ok (intent r)
    /\ response r <> "".
Proof.
  intros Herr Hrep Hacc.
  assert (inbound_text env msg = Ok msg) as Hin.
  { unfold inbound_text, translates_inbound. rewrite Herr.
    by rewrite andb_false_r. }
  destruct (turn_returns env msg phone w) as (r & w' & Hrun).
  { exact Hacc. }
  { intros e. by rewrite Hin. }
  { intros label e. unfold outbound_text. destruct (negb _); [|done].
    destruct (translation_or_reported (translator env)
                (response_text_en label) (source_lang_of env msg)
                (response_text_en label) Hrep) as [v ->].
    done. }
  exists r, w'. split; [done|]. split; [done|].
  destruct (completed_turn _ _ _ _ _ _ Hrun)
    as (text & patient & w1 & pev & _ & Hin' & Hc & _).
  rewrite Hin in Hin'. injection Hin' as <-.
  split; [done|]. by eapply response_not_empty.
Qed.

(** Re-localization, for a turn that returns with a detected language
    other than [en]: in this turn the English reply was sent to
    translation towards that language and then a reply was dispatched;
    if the translation result has a true [error] entry the reply returned
    and dispatched is the English reply, otherwise it is the
    translation. *)
Lemma relocalization env msg phone w r w' :
  process_message env msg phone w = (Ok r, w') ->
  source_lang_of env msg <> "en" ->
  exists d before m_out,
    translate_text (translator env) (VStr (response_text_en (intent r)))
                   (source_lang_of env msg) "auto" = Ok d
    /\ calls w'
       = calls w ++ before
         ++ [EvTranslate (response_text_en (intent r)) (source_lang_of env msg);
             EvSend phone (response r); EvLogMessage m_out]
    /\ Forall (fun ev => is_send ev = false) before
    /\ Message.content m_out = response r
    /\ (get_truthy d "error" = true ->
        response r = response_text_en (intent r))
    /\ (get_truthy d "error" = false ->
        d !! "translated_text" = Some (response r)).
Proof.
  intros H Hne.
  destruct (completed_turn _ _ _ _ _ _ H)
    as (text & patient & w1 & pev & _ & _ & _ & Hout & _ & _ & _ & _ & Hquiet
        & Hcalls & _).
  apply String.eqb_neq in Hne.
  unfold outbound_text in Hout. unfold outbound_calls in Hcalls.
  rewrite Hne in Hout, Hcalls. cbn [negb] in *.
  apply translation_or_ok in Hout as (d & Hd & Hcases).
  exists d. eexists (inbound_calls env msg ++ pev ++ [_; _]), _.
  split; [done|]. split.
  { rewrite Hcalls, <- !app_assoc. reflexivity. }
  split.
  { repeat apply Forall_app_2.
    - unfold inbound_calls. destruct (translates_inbound env msg);
        by repeat constructor.
    - eapply Forall_impl; [exact Hquiet|]. by intros ev (_ & ? & _).
    - by repeat constructor. }
  split; [done|].
  split; intros Herr; destruct Hcases as [[? ?]|[? ?]]; congruence.
Qed.

(** C3 fails on this turn.  Detection reports an error (together with
    [sw]) and the translator raises an exception without a message, so
    every call of the language service errors; the inbound text is
    classified as it is, but the turn then raises [KeyError] in step 6
    instead of returning: [translate_text] answers [{"error": ""}], whose
    [error] entry is false.  Only the patient's record was appended and
    nothing was dispatched. *)
Theorem language_service_down_aborts :
  get_truthy (detect_language env_language_service_down "hello") "error" = true
  /\ inbound_text env_language_service_down "hello" = Ok "hello"
  /\ translate_text (translator env_language_service_down)
       (VStr (response_text_en "greeting")) "sw" "auto"
     = Ok {[ "error" := "" ]}
  /\ (process_message env_language_service_down "hello" "+100" empty_world).1
     = Raise (Exn KeyError "'translated_text'")
  /\ map Message.sender
       (messages
          (process_message env_language_service_down "hello" "+100"
             empty_world).2)
     = ["patient"]
  /\ filter (fun ev => is_send ev = true)
       (calls
          (process_message env_language_service_down "hello" "+100"
             empty_world).2)
     = [].
Proof. repeat split; vm_compute; reflexivity. Qed.

(** C5 fails on this turn.  Swahili is detected, the inbound translation
    works, and the translation of the reply raises an exception without a
    message: the turn raises [KeyError] instead of falling back to the
    English reply; nothing is returned or dispatched, and the reply is not
    logged. *)
Theorem reply_translation_failure_aborts :
  source_lang_of env_reply_untranslated "Habari" = "sw"
  /\ inbound_text env_reply_untranslated "Habari" = Ok "hello"
  /\ translate_text (translator env_reply_untranslated)
       (VStr (response_text_en "greeting")) "sw" "auto"
     = Ok {[ "error" := "" ]}
  /\ (process_message env_reply_untranslated "Habari" "+100" empty_world).1
     = Raise (Exn KeyError "'translated_text'")
  /\ map Message.sender
       (messages
          (process_message env_reply_untranslated "Habari" "+100"
             empty_world).2)
     = ["patient"]
  /\ filter (fun ev => is_send ev = true)
       (calls
          (process_message env_reply_untranslated "Habari" "+100"
             empty_world).2)
     = [].
Proof. repeat split; vm_compute; reflexivity. Qed.

Lemma degrades_when_failures_reported_witness :
  get_truthy (detect_language env_sw_error_not_found "hello") "error" = true
  /\ reports_failures (translator env_sw_error_not_found)
  /\ accepting empty_world
  /\ exists r w',
    process_message env_sw_error_not_found "hello" "+100" empty_world
    = (Ok r, w')
    /\ inbound_text env_sw_error_not_found "hello" = Ok "hello"
    /\ classify_intent (llm_chain env_sw_error_not_found) "hello"
       = Ok (intent r)
    /\ response r <> "".
Proof.
  assert (reports_failures (translator env_sw_error_not_found)) as Hrep.
  { intros ? ? ? ? [= <-]. by left. }
  split; [reflexivity|]. split; [exact Hrep|].
  split; [exact accepting_empty_world|].
  apply (degrades_when_failures_reported env_sw_error_not_found "hello"
           "+100" empty_world);
    [reflexivity | exact Hrep | exact accepting_empty_world].
Defined.

Lemma relocalization_witness :
  process_message env_sw_not_found "Nataka kuweka miadi" "+100" empty_world
  = (Ok (MkTurnResult "processed" "unclear" (response_text_en "unclear")),
     (process_message env_sw_not_found "Nataka kuweka miadi" "+100"
        empty_world).2)
  /\ source_lang_of env_sw_not_found "Nataka kuweka miadi" <> "en"
  /\ exists d before m_out,
    translate_text (translator env_sw_not_found)
      (VStr (response_text_en "unclear"))
      (source_lang_of env_sw_not_found "Nataka kuweka miadi") "auto" = Ok d
    /\ calls (process_message env_sw_not_found "Nataka kuweka miadi"
                "+100" empty_world).2
       = calls empty_world ++ before
         ++ [EvTranslate (response_text_en "unclear")
               (source_lang_of env_sw_not_found "Nataka kuweka miadi");
             EvSend "+100" (response_text_en "unclear"); EvLogMessage m_out]
    /\ Forall (fun ev => is_send ev = false) before
    /\ Message.content m_out = response_text_en "unclear"
    /\ (get_truthy d "error" = true ->
        response_text_en "unclear" = response_text_en "unclear")
    /\ (get_truthy d "error" = false ->
        d !! "translated_text" = Some (response_text_en "unclear")).
Proof.
  split; [vm_compute; reflexivity|]. split; [by vm_compute|].
  apply (relocalization env_sw_not_found "Nataka kuweka miadi" "+100"
           empty_world
           (MkTurnResult "processed" "unclear" (response_text_en "unclear")));
    [vm_compute; reflexivity | by vm_compute].
Defined.

(** * The rest of the code *)

(** ** The store stays consistent *)

Lemma record_call_consistent ev w : consistent w -> consistent (record_call ev w).
Proof. by intros []. Qed.

Lemma emit_keeps_consistent ev : keeps consistent (emit ev).
Proof. intros w r w' HI [= <- <-]. by apply record_call_consistent. Qed.

Lemma find_none_phone_number phone rows :
  find (fun p => String.eqb (Patient.phone_number p) phone) rows = None ->
  phone ∉ map Patient.phone_number rows.
Proof.
  induction rows as [|q rows IH]; cbn; [intros _; apply not_elem_of_nil|].
  destruct (String.eqb (Patient.phone_number q) phone) eqn:E; [done|].
  apply String.eqb_neq in E. intros Hnone.
  apply not_elem_of_cons. split; [congruence | auto].
Qed.

Lemma update_patient_ids phone language rows :
  map Patient.id (update_patient phone language rows) = map Patient.id rows.
Proof.
  induction rows as [|q rows IH]; cbn; [done|].
  destruct (String.eqb _ _); cbn; by rewrite ?IH.
Qed.

Lemma update_patient_phone_numbers phone language rows :
  map Patient.phone_number (update_patient phone language rows)
  = map Patient.phone_number rows.
Proof.
  induction rows as [|q rows IH]; cbn; [done|].
  destruct (String.eqb _ _); cbn; by rewrite ?IH.
Qed.

Lemma update_patient_fresh phone language rows n :
  Forall (fun p => Patient.id p < n) rows ->
  Forall (fun p => Patient.id p < n) (update_patient phone language rows).
Proof.
  intros H. apply Forall_forall. intros p Hp.
  assert (Patient.id p ∈ map Patient.id (update_patient phone language rows))
    as Hid by (apply list_elem_of_fmap; eauto).
  rewrite update_patient_ids in Hid.
  apply list_elem_of_fmap in Hid as (q & -> & Hq).
  by eapply Forall_forall in H.
Qed.

Lemma fresh_not_in {A} (f : A -> Z) rows n :
  Forall (fun x => f x < n) rows -> n ∉ map f rows.
Proof.
  intros H Hin. apply list_elem_of_fmap in Hin as (x & -> & Hx).
  eapply Forall_forall in H; [|exact Hx]. lia.
Qed.

Lemma get_or_create_patient_keeps_consistent phone language :
  keeps consistent (get_or_create_patient phone language).
Proof.
  intros w r w' [Hph Hid Hfresh Hmid Hmfresh]. unfold get_or_create_patient.
  destruct (query_patient phone w) as [p0|] eqn:Hq.
  - destruct (negb _); [|by intros [= <- <-]].
    destruct (commit w _); [|by intros [= <- <-]].
    intros [= <- <-]. split; cbn; try done.
    + by rewrite update_patient_phone_numbers.
    + by rewrite update_patient_ids.
    + by apply update_patient_fresh.
  - destruct (commit w _); [|by intros [= <- <-]].
    intros [= <- <-]. split; cbn; try done.
    + rewrite map_app. cbn. apply NoDup_app. split; [done|].
      split; [|apply NoDup_singleton].
      intros x Hx ->%list_elem_of_singleton.
      by apply (find_none_phone_number _ _ Hq).
    + rewrite map_app. cbn. apply NoDup_app. split; [done|].
      split; [|apply NoDup_singleton].
      intros x Hx ->%list_elem_of_singleton.
      by apply (fresh_not_in _ _ _ Hfresh).
    + apply Forall_app. split.
      * eapply Forall_impl; [exact Hfresh|]. cbn. intros; lia.
      * repeat constructor. cbn. lia.
Qed.

Lemma log_message_keeps_consistent
    patient_id session_id sender content translated_content lang :
  keeps consistent
    (log_message patient_id session_id sender content translated_content lang).
Proof.
  intros w r w' [Hph Hid Hfresh Hmid Hmfresh]. unfold log_message.
  destruct (commit w _); [|by intros [= <- <-]].
  intros [= <- <-]. split; cbn; try done.
  - rewrite map_app. cbn. apply NoDup_app. split; [done|].
    split; [|apply NoDup_singleton].
    intros x Hx ->%list_elem_of_singleton.
    by apply (fresh_not_in _ _ _ Hmfresh).
  - apply Forall_app. split.
    + eapply Forall_impl; [exact Hmfresh|]. cbn. intros; lia.
    + repeat constructor. cbn. lia.
Qed.

(** A turn leaves a consistent store consistent, whether it returns or
    raises: one row per phone number, ids unique and below the counters. *)
Theorem turn_keeps_consistent env msg phone w r w' :
  consistent w ->
  process_message env msg phone w = (r, w') ->
  consistent w'.
Proof.
  intros HI Hrun. revert HI Hrun.
  apply process_message_keeps;
    auto using emit_keeps_consistent, get_or_create_patient_keeps_consistent,
      log_message_keeps_consistent.
Qed.

Lemma consistent_empty_world : consistent empty_world.
Proof. split; cbn; constructor. Qed.

Lemma turn_keeps_consistent_witness :
  consistent empty_world
  /\ consistent
       (process_message env_reply_untranslated "Habari" "+100" empty_world).2.
Proof.
  split; [exact consistent_empty_world|].
  apply (turn_keeps_consistent env_reply_untranslated "Habari" "+100"
           empty_world
           (process_message env_reply_untranslated "Habari" "+100"
              empty_world).1);
    [exact consistent_empty_world | apply surjective_pairing].
Defined.

(** ** What a turn leaves alone *)

Lemma other_patients_update phone language rows :
  filter (fun p => Patient.phone_number p <> phone)
         (update_patient phone language rows)
  = filter (fun p => Patient.phone_number p <> phone) rows.
Proof.
  induction rows as [|q rows IH]; cbn; [done|].
  destruct (String.eqb (Patient.phone_number q) phone) eqn:E.
  - apply String.eqb_eq in E.
    rewrite !filter_cons. cbn. by rewrite !decide_False by (by intros []).
  - rewrite !filter_cons. by rewrite IH.
Qed.

Lemma emit_keeps_frame phone w0 ev : keeps (turn_frame_of phone w0) (emit ev).
Proof.
  intros w r w' (Ho & Hm & Hc & Hl) [= <- <-].
  repeat split; try done. cbn.
  etrans; [exact Hc|]. by apply prefix_app_r.
Qed.

Lemma log_message_keeps_frame phone w0
    patient_id session_id sender content translated_content lang :
  keeps (turn_frame_of phone w0)
    (log_message patient_id session_id sender content translated_content lang).
Proof.
  intros w r w' (Ho & Hm & Hc & Hl). unfold log_message.
  destruct (commit w _); [|by intros [= <- <-]].
  intros [= <- <-]. repeat split; try done; cbn.
  - etrans; [exact Hm|]. by apply prefix_app_r.
  - etrans; [exact Hc|]. by apply prefix_app_r.
Qed.

Lemma get_or_create_patient_keeps_frame phone w0 language :
  keeps (turn_frame_of phone w0) (get_or_create_patient phone language).
Proof.
  intros w r w' (Ho & Hm & Hc & Hl). unfold get_or_create_patient.
  destruct (query_patient phone w) as [p0|].
  - destruct (negb _); [|by intros [= <- <-]].
    destruct (commit w _); [|by intros [= <- <-]].
    intros [= <- <-]. repeat split; try done; cbn.
    + unfold other_patients in *. cbn. by rewrite other_patients_update.
    + etrans; [exact Hc|]. by apply prefix_app_r.
    + by rewrite length_update_patient.
  - destruct (commit w _); [|by intros [= <- <-]].
    intros [= <- <-]. repeat split; try done; cbn.
    + unfold other_patients in *. cbn. rewrite filter_app, filter_cons. cbn.
      rewrite decide_False by (by intros []).
      by rewrite ?filter_nil, app_nil_r.
    + etrans; [exact Hc|]. by apply prefix_app_r.
    + rewrite length_app. cbn. lia.
Qed.

(** Whether it returns or raises, a turn for one phone number changes no
    row of another patient, removes no patient, and only appends to the
    transcript and to the log. *)
Theorem turn_frame env msg phone w r w' :
  process_message env msg phone w = (r, w') ->
  other_patients phone w' = other_patients phone w
  /\ messages w `prefix_of` messages w'
  /\ calls w `prefix_of` calls w'
  /\ (length (patients w) <= length (patients w'))%nat.
Proof.
  intros Hrun.
  assert (turn_frame_of phone w w) as HI by (by repeat split).
  revert HI Hrun. apply process_message_keeps;
    auto using emit_keeps_frame, get_or_create_patient_keeps_frame,
      log_message_keeps_frame.
Qed.

Lemma turn_frame_witness :
  other_patients "+200"
    (process_message env_reply_untranslated "Habari" "+200"
       world_with_sw_patient).2
  = other_patients "+200" world_with_sw_patient
  /\ messages world_with_sw_patient
     `prefix_of` messages
       (process_message env_reply_untranslated "Habari" "+200"
          world_with_sw_patient).2
  /\ calls world_with_sw_patient
     `prefix_of` calls
       (process_message env_reply_untranslated "Habari" "+200"
          world_with_sw_patient).2
  /\ (length (patients world_with_sw_patient)
      <= length (patients
                   (process_message env_reply_untranslated "Habari" "+200"
                      world_with_sw_patient).2))%nat.
Proof.
  apply (turn_frame env_reply_untranslated "Habari" "+200"
           world_with_sw_patient
           (process_message env_reply_untranslated "Habari" "+200"
              world_with_sw_patient).1).
  apply surjective_pairing.
Defined.

(** ** When a turn raises, and when it cannot *)

Lemma truthy_not_empty s : truthy s = true <-> s <> "".
Proof. by destruct s. Qed.

Lemma inbound_calls_undispatched env msg :
  Forall (fun ev => is_send ev = false) (inbound_calls env msg).
Proof.
  unfold inbound_calls. destruct (translates_inbound env msg);
    by repeat constructor.
Qed.

Lemma outbound_calls_undispatched source_lang text_en :
  Forall (fun ev => is_send ev = false) (outbound_calls source_lang text_en).
Proof. unfold outbound_calls. destruct (negb _); by repeat constructor. Qed.

Lemma quiet_undispatched evs :
  Forall quiet evs -> Forall (fun ev => is_send ev = false) evs.
Proof.
  intros H. eapply Forall_impl; [exact H|]. by intros ev (_ & ? & _).
Qed.

(** Every exception a turn raises is one of two.  Either it is what the
    database answered to a row the turn tried to write: the patient's
    row, or a record of the session tagged with the detected language.
    Or it is [KeyError('translated_text')], raised right after a
    translation requested in this turn made the translator raise an
    exception, other than [TranslationNotFound], whose [str] is empty;
    the detected language is then not [en], and the turn has dispatched
    nothing. *)
Theorem turn_exceptions env msg phone w e w' :
  process_message env msg phone w = (Raise e, w') ->
  exists evs,
    calls w' = calls w ++ evs
    /\ ((exists row,
           commit w row = Raise e
           /\ (patient_row phone (source_lang_of env msg) w = Some row
               \/ exists patient_id sender content translated_content,
                    row = MessageRow patient_id phone sender content
                            translated_content
                            (Some (source_lang_of env msg))))
        \/ (e = Exn KeyError "'translated_text'"
            /\ source_lang_of env msg <> "en"
            /\ Forall (fun ev => is_send ev = false) evs
            /\ exists text dest_lang e0 before,
                 evs = before ++ [EvTranslate text dest_lang]
                 /\ translator env "auto" dest_lang text = Raise e0
                 /\ exn_cls e0 <> TranslationNotFound
                 /\ exn_str e0 = "")).
Proof.
  intros H.
  destruct (raised_turn _ _ _ _ _ _ H)
    as [(Hin & Hcalls & _)
       |[(text & row & _ & Hrow & Hraise & Hcalls & _)
        |(text & patient & w1 & pev & _ & _ & Hquiet & _
          & [(Hraise & Hcalls & _)
            |(label & _ & _
              & [(Hout & Hcalls)|(final & _ & Hraise & Hcalls)])])]];
    eexists; (split; [exact Hcalls|]).
  - right. unfold inbound_text in Hin. unfold inbound_calls.
    destruct (translates_inbound env msg) eqn:Ht; [|done].
    apply translation_or_raises in Hin as (-> & e0 & Hraise & Hcls & Hstr).
    split; [done|]. split.
    { unfold translates_inbound in Ht. apply andb_true_iff in Ht as [Hne _].
      apply negb_true_iff in Hne. by apply String.eqb_neq. }
    split; [by repeat constructor|].
    by exists msg, "en", e0, [EvDetect msg].
  - left. exists row. auto.
  - left. eexists. split; [exact Hraise|]. right.
    unfold inbound_row. by eexists _, _, _, _.
  - right. unfold outbound_text in Hout. unfold outbound_calls.
    destruct (String.eqb (source_lang_of env msg) "en") eqn:Hen; [done|].
    cbn [negb] in *.
    apply translation_or_raises in Hout as (-> & e0 & Hraise & Hcls & Hstr).
    split; [done|]. split; [by apply String.eqb_neq|]. split.
    { repeat apply Forall_app_2;
        auto using inbound_calls_undispatched, quiet_undispatched;
        by repeat constructor. }
    eexists (response_text_en label), (source_lang_of env msg), e0, _.
    split; [|done]. by rewrite !app_assoc.
  - left. eexists. split; [exact Hraise|]. right.
    unfold outbound_row. by eexists _, _, _, _.
Qed.

Lemma turn_exceptions_witness :
  process_message env_reply_untranslated "Habari" "+100" empty_world
  = (Raise (Exn KeyError "'translated_text'"),
     (process_message env_reply_untranslated "Habari" "+100" empty_world).2)
  /\ exists evs,
    calls (process_message env_reply_untranslated "Habari" "+100"
             empty_world).2
    = calls empty_world ++ evs
    /\ ((exists row,
           commit empty_world row = Raise (Exn KeyError "'translated_text'")
           /\ (patient_row "+100"
                 (source_lang_of env_reply_untranslated "Habari") empty_world
               = Some row
               \/ exists patient_id sender content translated_content,
                    row = MessageRow patient_id "+100" sender content
                            translated_content
                            (Some (source_lang_of env_reply_untranslated
                                     "Habari"))))
        \/ (Exn KeyError "'translated_text'" = Exn KeyError "'translated_text'"
            /\ source_lang_of env_reply_untranslated "Habari" <> "en"
            /\ Forall (fun ev => is_send ev = false) evs
            /\ exists text dest_lang e0 before,
                 evs = before ++ [EvTranslate text dest_lang]
                 /\ translator env_reply_untranslated "auto" dest_lang text
                    = Raise e0
                 /\ exn_cls e0 <> TranslationNotFound
                 /\ exn_str e0 = "")).
Proof.
  split; [vm_compute; reflexivity|].
  apply (turn_exceptions env_reply_untranslated "Habari" "+100" empty_world).
  vm_compute; reflexivity.
Defined.

(** With a translator whose failures all carry a text (or are
    [TranslationNotFound]) and a database that takes every row, every
    turn returns: whatever detection, the LLM chain and the Twilio client
    do, nothing is raised. *)
Theorem turn_returns_when_failures_reported env msg phone w :
  reports_failures (translator env) ->
  accepting w ->
  exists r w', process_message env msg phone w = (Ok r, w')
               /\ status r = "processed" /\ response r <> "".
Proof.
  intros Hrep Hacc.
  destruct (turn_returns env msg phone w) as (r & w' & Hrun).
  { exact Hacc. }
  { intros e. unfold inbound_text.
    destruct (translates_inbound env msg); [|done].
    by destruct (translation_or_reported (translator env) msg "en" msg Hrep)
      as [v ->]. }
  { intros label e. unfold outbound_text. destruct (negb _); [|done].
    by destruct (translation_or_reported (translator env)
                   (response_text_en label) (source_lang_of env msg)
                   (response_text_en label) Hrep) as [v ->]. }
  exists r, w'. split; [done|]. split.
  - by destruct (completed_turn _ _ _ _ _ _ Hrun) as (? & ? & ? & ? & ? & _).
  - by eapply response_not_empty.
Qed.

Lemma translator_not_found_reports : reports_failures translator_not_found.
Proof. intros ? ? ? ? [= <-]. by left. Qed.

Lemma turn_returns_when_failures_reported_witness :
  reports_failures (translator env_sw_not_found)
  /\ accepting empty_world
  /\ exists r w',
       process_message env_sw_not_found "Habari" "+100" empty_world = (Ok r, w')
       /\ status r = "processed" /\ response r <> "".
Proof.
  split; [exact translator_not_found_reports|].
  split; [exact accepting_empty_world|].
  apply (turn_returns_when_failures_reported env_sw_not_found "Habari" "+100"
           empty_world).
  - exact translator_not_found_reports.
  - exact accepting_empty_world.
Defined.

(** ** The language on record *)

(** A turn for a patient on record that gets through step 1, and whose
    patient row the database takes, leaves the language detected in this
    turn on record, in the same row, whether the turn then returns or
    raises. *)
Theorem language_recorded env msg phone w r w' text p0 :
  inbound_text env msg = Ok text ->
  query_patient phone w = Some p0 ->
  (forall row, patient_row phone (source_lang_of env msg) w = Some row ->
               commit w row = Ok tt) ->
  process_message env msg phone w = (r, w') ->
  exists p,
    query_patient phone w' = Some p
    /\ Patient.id p = Patient.id p0
    /\ Patient.language p = Some (source_lang_of env msg)
    /\ length (patients w') = length (patients w).
Proof.
  intros Hin Hq Hrow Hrun.
  destruct (record_calls_frame (inbound_calls env msg) w)
    as (Hfp & _).
  destruct r as [res|e].
  - destruct (completed_turn _ _ _ _ _ _ Hrun)
      as (_ & p & _ & _ & _ & _ & _ & _ & Hq' & Hlang & Hrows & _).
    rewrite Hq in Hrows. exists p. tauto.
  - destruct (raised_turn _ _ _ _ _ _ Hrun)
      as [(Hin' & _)
         |[(_ & row & _ & Hr & Hraise & _)
          |(_ & p & w1 & _ & _ & Hp & _ & Hpat & _)]].
    + congruence.
    + rewrite (Hrow row Hr) in Hraise. discriminate Hraise.
    + destruct (get_or_create_patient_spec _ _ _ _ _ Hp)
        as (Hq' & _ & Hlang & _ & _ & _ & _ & Hrows).
      rewrite (query_patient_patients phone w _ Hfp), Hq in Hrows.
      destruct Hrows as (Hid & Hlen & _).
      exists p. rewrite (query_patient_patients phone w1 w' Hpat).
      by rewrite Hpat, Hlen, Hfp.
Qed.

Lemma language_recorded_witness :
  inbound_text env_reply_untranslated "Habari" = Ok "hello"
  /\ query_patient "+100" (process_message env_en "Hello" "+100" empty_world).2
     = Some (Patient.Build 1 "+100" None (Some "en"))
  /\ (process_message env_reply_untranslated "Habari" "+100"
        (process_message env_en "Hello" "+100" empty_world).2).1
     = Raise (Exn KeyError "'translated_text'")
  /\ exists p,
    query_patient "+100"
      (process_message env_reply_untranslated "Habari" "+100"
         (process_message env_en "Hello" "+100" empty_world).2).2
    = Some p
    /\ Patient.id p = Patient.id (Patient.Build 1 "+100" None (Some "en"))
    /\ Patient.language p
       = Some (source_lang_of env_reply_untranslated "Habari")
    /\ length (patients
                 (process_message env_reply_untranslated "Habari" "+100"
                    (process_message env_en "Hello" "+100" empty_world).2).2)
       = length (patients
                   (process_message env_en "Hello" "+100" empty_world).2).
Proof.
  split; [vm_compute; reflexivity|]. split; [vm_compute; reflexivity|].
  split; [vm_compute; reflexivity|].
  apply (language_recorded env_reply_untranslated "Habari" "+100"
           (process_message env_en "Hello" "+100" empty_world).2
           (process_message env_reply_untranslated "Habari" "+100"
              (process_message env_en "Hello" "+100" empty_world).2).1
           (process_message env_reply_untranslated "Habari" "+100"
              (process_message env_en "Hello" "+100" empty_world).2).2
           "hello" (Patient.Build 1 "+100" None (Some "en"))).
  - vm_compute; reflexivity.
  - vm_compute; reflexivity.
  - intros row _. reflexivity.
  - apply surjective_pairing.
Defined.

(** ** The two scenarios of [tests/test_agents.py], for every input *)

Lemma translation_or_translated tr text dest_lang fallback t :
  text <> "" ->
  tr "auto" dest_lang text = Ok (Some t) ->
  t <> "" ->
  translation_or tr text dest_lang fallback = Ok t.
Proof.
  intros Htext Htr Ht.
  apply truthy_not_empty in Htext. apply truthy_not_empty in Ht.
  unfold translation_or, translate_text.
  cbn [value_truthy is_str]. rewrite Htext. cbn [negb orb].
  rewrite Htr. cbn beta iota. rewrite Ht. unfold try_except.
  unfold get_truthy, getitem.
  rewrite lookup_insert_ne, lookup_insert_ne, lookup_singleton_ne by done.
  cbn [negb]. by rewrite lookup_insert_eq.
Qed.

(** A message detected as English, with a database that takes every row:
    no translation is requested, the message itself is classified, the
    reply returned and dispatched is the English text for the intent, and
    a number not seen before gets a patient row with language [en]. *)
Theorem english_turn env msg phone w :
  source_lang_of env msg = "en" ->
  accepting w ->
  exists label w' evs,
    classify_intent (llm_chain env) msg = Ok label
    /\ process_message env msg phone w
       = (Ok (MkTurnResult "processed" label (response_text_en label)), w')
    /\ calls w' = calls w ++ evs
    /\ Forall (fun ev => is_translate ev = false) evs
    /\ In (EvClassify msg) evs
    /\ In (EvSend phone (response_text_en label)) evs
    /\ map Message.content (skipn (length (messages w)) (messages w'))
       = [msg; response_text_en label]
    /\ (query_patient phone w = None ->
        patients w'
        = patients w ++ [Patient.Build (next_patient_id w) phone None
                                       (Some "en")]).
Proof.
  intros Hen Hacc.
  assert (translates_inbound env msg = false) as Hno.
  { unfold translates_inbound. by rewrite Hen. }
  assert (inbound_text env msg = Ok msg) as Hin.
  { unfold inbound_text. by rewrite Hno. }
  destruct (classify_intent_returns (llm_chain env) msg) as [label Hc].
  assert (outbound_text env (source_lang_of env msg) (response_text_en label)
          = Ok (response_text_en label)) as Hout.
  { unfold outbound_text. by rewrite Hen. }
  destruct (record_calls_frame (inbound_calls env msg) w)
    as (Hfp & Hfm & Hfi & _ & Hfc & Hfk).
  destruct (get_or_create_patient_returns phone (source_lang_of env msg)
              (record_calls (inbound_calls env msg) w))
    as (patient & w1 & Hp).
  { intros r _. by rewrite Hfk. }
  destruct (get_or_create_patient_spec _ _ _ _ _ Hp)
    as (_ & _ & _ & Hm & _ & _ & (pev & Hev & Hquiet) & _).
  destruct (turn_runs env msg phone w msg patient w1 label
              (response_text_en label))
    as (w' & Hrun & Hpat & Hmsg & Hcalls); try done.
  exists label, w'. eexists.
  split; [exact Hc|]. split; [exact Hrun|].
  split. { rewrite Hcalls, Hev, Hfc, <- !app_assoc. reflexivity. }
  split.
  { unfold outbound_calls. rewrite Hen. cbn [negb String.eqb].
    repeat apply Forall_app_2;
      auto using inbound_calls_untranslated, quiet_untranslated;
      by repeat constructor. }
  split. { rewrite !in_app_iff. cbn. tauto. }
  split. { rewrite !in_app_iff. cbn. tauto. }
  split.
  { rewrite Hmsg, Hm, Hfm, drop_app_length. reflexivity. }
  intros Hnew. rewrite Hpat.
  remember (record_calls (inbound_calls env msg) w) as W eqn:HW.
  unfold get_or_create_patient in Hp.
  rewrite (query_patient_patients phone w W Hfp), Hnew in Hp.
  destruct (commit W _); [|done].
  injection Hp as <- <-. cbn [patients record_call].
  by rewrite Hfp, Hfi, Hen.
Qed.

Lemma english_turn_witness :
  source_lang_of env_en "Hello" = "en"
  /\ accepting empty_world
  /\ exists label w' evs,
    classify_intent (llm_chain env_en) "Hello" = Ok label
    /\ process_message env_en "Hello" "+12345" empty_world
       = (Ok (MkTurnResult "processed" label (response_text_en label)), w')
    /\ calls w' = calls empty_world ++ evs
    /\ Forall (fun ev => is_translate ev = false) evs
    /\ In (EvClassify "Hello") evs
    /\ In (EvSend "+12345" (response_text_en label)) evs
    /\ map Message.content
         (skipn (length (messages empty_world)) (messages w'))
       = ["Hello"; response_text_en label]
    /\ (query_patient "+12345" empty_world = None ->
        patients w'
        = patients empty_world
          ++ [Patient.Build (next_patient_id empty_world) "+12345" None
                            (Some "en")]).
Proof.
  split; [reflexivity|]. split; [exact accepting_empty_world|].
  apply (english_turn env_en "Hello" "+12345" empty_world);
    [reflexivity | exact accepting_empty_world].
Defined.

(** A message detected, without error, as a language other than [en],
    with a translator that answers both requests and a database that
    takes every row: the translation is what gets classified, the reply
    returned and dispatched is the translation of the English text for
    the intent, both records keep the English text as
    [translated_content], and a patient already on record with that
    language is neither created again nor changed. *)
Theorem translated_turn env msg phone w source_lang message_en label reply p0 :
  detect_language env msg !! "language" = Some source_lang ->
  get_truthy (detect_language env msg) "error" = false ->
  source_lang <> "en" ->
  msg <> "" ->
  translator env "auto" "en" msg = Ok (Some message_en) ->
  message_en <> "" ->
  classify_intent (llm_chain env) message_en = Ok label ->
  translator env "auto" source_lang (response_text_en label)
  = Ok (Some reply) ->
  reply <> "" ->
  query_patient phone w = Some p0 ->
  Patient.language p0 = Some source_lang ->
  accepting w ->
  exists w' m_in m_out,
    process_message env msg phone w
    = (Ok (MkTurnResult "processed" label reply), w')
    /\ patients w' = patients w
    /\ messages w' = messages w ++ [m_in; m_out]
    /\ Message.patient_id m_in = Patient.id p0
    /\ Message.patient_id m_out = Patient.id p0
    /\ Message.content m_in = msg
    /\ Message.translated_content m_in = Some message_en
    /\ Message.content m_out = reply
    /\ Message.translated_content m_out = Some (response_text_en label)
    /\ calls w'
       = calls w
         ++ [EvDetect msg; EvTranslate msg "en"; EvLogMessage m_in;
             EvClassify message_en;
             EvTranslate (response_text_en label) source_lang;
             EvSend phone reply; EvLogMessage m_out].
Proof.
  intros Hlang Herr Hne Hmsg Hin_tr Hmen Hlabel Hout_tr Hreply Hq Hstored
    Hacc.
  assert (source_lang_of env msg = source_lang) as Hsl.
  { unfold source_lang_of, get_default. by rewrite Hlang. }
  assert (String.eqb source_lang "en" = false) as Hneb
    by (by apply String.eqb_neq).
  assert (translates_inbound env msg = true) as Htin.
  { unfold translates_inbound. by rewrite Hsl, Hneb, Herr. }
  assert (inbound_text env msg = Ok message_en) as Hin.
  { unfold inbound_text. rewrite Htin.
    by apply translation_or_translated. }
  assert (outbound_text env source_lang (response_text_en label) = Ok reply)
    as Hout.
  { unfold outbound_text. rewrite Hneb. cbn [negb].
    apply translation_or_translated; try done.
    apply response_text_en_not_empty. }
  destruct (record_calls_frame (inbound_calls env msg) w)
    as (Hfp & Hfm & Hfi & Hfj & Hfc & Hfk).
  pose proof (get_or_create_patient_known phone source_lang
                (record_calls (inbound_calls env msg) w) p0) as Hp.
  rewrite (query_patient_patients phone w _ Hfp) in Hp.
  specialize (Hp Hq Hstored). rewrite <- Hsl in Hp, Hout.
  destruct (turn_runs env msg phone w message_en p0 _ label reply
              Hin Hp (Hacc _) Hlabel Hout (Hacc _))
    as (w' & Hrun & Hpat & Hmsgs & Hcalls).
  rewrite Hsl in *.
  eexists w', _, _. split; [exact Hrun|].
  split; [by rewrite Hpat, Hfp|].
  split; [by rewrite Hmsgs, Hfm|].
  cbn [inbound_record outbound_record Message.patient_id Message.content
       Message.translated_content].
  unfold translated_if_foreign. rewrite Hneb. cbn [negb].
  do 6 (split; [done|]).
  rewrite Hcalls, Hfc. unfold inbound_calls, outbound_calls.
  rewrite Htin, Hneb. cbn [negb]. by rewrite <- !app_assoc.
Qed.

Lemma translated_turn_witness :
  detect_language env_sw "Nataka kuweka miadi" !! "language" = Some "sw"
  /\ get_truthy (detect_language env_sw "Nataka kuweka miadi") "error" = false
  /\ translator env_sw "auto" "en" "Nataka kuweka miadi"
     = Ok (Some "I want to book an appointment")
  /\ classify_intent (llm_chain env_sw) "I want to book an appointment"
     = Ok "book_appointment"
  /\ translator env_sw "auto" "sw" (response_text_en "book_appointment")
     = Ok (Some "Naweza kusaidia.")
  /\ query_patient "+100" world_with_sw_patient
     = Some (Patient.Build 1 "+100" None (Some "sw"))
  /\ accepting world_with_sw_patient
  /\ exists w' m_in m_out,
    process_message env_sw "Nataka kuweka miadi" "+100" world_with_sw_patient
    = (Ok (MkTurnResult "processed" "book_appointment" "Naweza kusaidia."), w')
    /\ patients w' = patients world_with_sw_patient
    /\ messages w' = messages world_with_sw_patient ++ [m_in; m_out]
    /\ Message.patient_id m_in = 1
    /\ Message.patient_id m_out = 1
    /\ Message.content m_in = "Nataka kuweka miadi"
    /\ Message.translated_content m_in = Some "I want to book an appointment"
    /\ Message.content m_out = "Naweza kusaidia."
    /\ Message.translated_content m_out
       = Some (response_text_en "book_appointment")
    /\ calls w'
       = calls world_with_sw_patient
         ++ [EvDetect "Nataka kuweka miadi";
             EvTranslate "Nataka kuweka miadi" "en"; EvLogMessage m_in;
             EvClassify "I want to book an appointment";
             EvTranslate (response_text_en "book_appointment") "sw";
             EvSend "+100" "Naweza kusaidia."; EvLogMessage m_out].
Proof.
  do 6 (split; [reflexivity|]).
  split; [by intros r|].
  apply (translated_turn env_sw "Nataka kuweka miadi" "+100"
           world_with_sw_patient "sw" "I want to book an appointment"
           "book_appointment" "Naweza kusaidia."
           (Patient.Build 1 "+100" None (Some "sw")));
    try reflexivity; try (by vm_compute); by intros r.
Defined.

(** ** More of [translate_text] *)

(** Every result of [translate_text] has exactly one of the entries
    [error] and [translated_text].  A [translated_text] is what the
    translator answered for a non-empty string, it is not empty, and it
    comes with [dest_language] and [source_language], the latter reading
    [auto detected] when the source language was left to [auto]. *)
Theorem translate_text_result_shape tr text dest_lang source_lang d :
  translate_text tr text dest_lang source_lang = Ok d ->
  (is_Some (d !! "error") /\ d !! "translated_text" = None)
  \/ (d !! "error" = None
      /\ exists s t,
           text = VStr s /\ s <> "" /\ t <> ""
           /\ tr source_lang dest_lang s = Ok (Some t)
           /\ d !! "translated_text" = Some t
           /\ d !! "dest_language" = Some dest_lang
           /\ d !! "source_language"
              = Some (if String.eqb source_lang "auto"
                      then "auto detected" else source_lang)).
Proof.
  unfold translate_text.
  destruct (negb (value_truthy text) || negb (is_str text)) eqn:Hguard.
  { intros [= <-]. left. by rewrite lookup_singleton_eq, lookup_singleton_ne. }
  destruct text as [| | |s| |]; cbn [is_str negb] in Hguard;
    rewrite ?orb_true_r in Hguard; try done.
  cbn [value_truthy] in Hguard.
  apply orb_false_iff in Hguard as [Hguard _].
  apply negb_false_iff in Hguard.
  unfold try_except.
  destruct (tr source_lang dest_lang s) as [[t|]|e] eqn:Htr; cbn beta iota.
  - destruct (truthy t) eqn:Ht.
    + intros [= <-]. right.
      split. { by rewrite !lookup_insert_ne, lookup_singleton_ne. }
      exists s, t. split; [done|]. split; [by apply truthy_not_empty|].
      split; [by apply truthy_not_empty|]. split; [done|].
      split; [by rewrite lookup_insert_eq|].
      split.
      * by rewrite !lookup_insert_ne, lookup_singleton_eq.
      * rewrite lookup_insert_ne, lookup_insert_eq by done.
        by destruct (String.eqb source_lang "auto").
    + intros [= <-]. left.
      by rewrite lookup_singleton_eq, lookup_singleton_ne.
  - intros [= <-]. left. by rewrite lookup_singleton_eq, lookup_singleton_ne.
  - destruct (exn_cls e); intros [= <-]; left;
      by rewrite lookup_singleton_eq, lookup_singleton_ne.
Qed.

Lemma translate_text_result_shape_witness :
  translate_text translator_works (VStr "Habari") "en" "auto"
  = Ok (<[ "translated_text" := "I want to book an appointment" ]>
        (<[ "source_language" := "auto detected" ]>
        {[ "dest_language" := "en" ]}))
  /\ ((is_Some ((<[ "translated_text" := "I want to book an appointment" ]>
                 (<[ "source_language" := "auto detected" ]>
                 {[ "dest_language" := "en" ]}) : gmap string string)
                !! "error")
       /\ (<[ "translated_text" := "I want to book an appointment" ]>
           (<[ "source_language" := "auto detected" ]>
           {[ "dest_language" := "en" ]}) : gmap string string)
          !! "translated_text" = None)
      \/ ((<[ "translated_text" := "I want to book an appointment" ]>
           (<[ "source_language" := "auto detected" ]>
           {[ "dest_language" := "en" ]}) : gmap string string)
          !! "error" = None
          /\ exists s t,
               VStr "Habari" = VStr s /\ s <> "" /\ t <> ""
               /\ translator_works "auto" "en" s = Ok (Some t)
               /\ (<[ "translated_text" := "I want to book an appointment" ]>
                   (<[ "source_language" := "auto detected" ]>
                   {[ "dest_language" := "en" ]}) : gmap string string)
                  !! "translated_text" = Some t
               /\ (<[ "translated_text" := "I want to book an appointment" ]>
                   (<[ "source_language" := "auto detected" ]>
                   {[ "dest_language" := "en" ]}) : gmap string string)
                  !! "dest_language" = Some "en"
               /\ (<[ "translated_text" := "I want to book an appointment" ]>
                   (<[ "source_language" := "auto detected" ]>
                   {[ "dest_language" := "en" ]}) : gmap string string)
                  !! "source_language"
                  = Some (if String.eqb "auto" "auto"
                          then "auto detected" else "auto"))).
Proof.
  split; [reflexivity|].
  apply (translate_text_result_shape translator_works (VStr "Habari") "en"
           "auto").
  reflexivity.
Defined.

(** A failed translation has a true [error] entry, with one exception:
    the translator raised an exception, other than [TranslationNotFound],
    whose [str] is empty.  Only then does the test
    [not result.get("error")] take a failure for a success. *)
Theorem translate_text_false_error tr text dest_lang source_lang d :
  translate_text tr text dest_lang source_lang = Ok d ->
  d !! "translated_text" = None ->
  get_truthy d "error" = false ->
  exists s e,
    text = VStr s
    /\ tr source_lang dest_lang s = Raise e
    /\ exn_cls e <> TranslationNotFound
    /\ exn_str e = ""
    /\ d = {[ "error" := "" ]}.
Proof.
  unfold translate_text, get_truthy.
  destruct (negb (value_truthy text) || negb (is_str text)).
  { intros [= <-] _. by rewrite lookup_singleton_eq. }
  destruct text as [| | |s| |];
    try (intros [= <-] _; by rewrite lookup_singleton_eq).
  unfold try_except.
  destruct (tr source_lang dest_lang s) as [[t|]|e] eqn:Htr; cbn beta iota.
  - destruct (truthy t).
    + intros [= <-]. by rewrite lookup_insert_eq.
    + intros [= <-] _. by rewrite lookup_singleton_eq.
  - intros [= <-] _. by rewrite lookup_singleton_eq.
  - destruct (exn_cls e) eqn:Hcls; intros [= <-] _;
      rewrite lookup_singleton_eq; cbn [truthy String.append]; try done.
    all: destruct (exn_str e) eqn:Hstr; [|done]; intros _;
      exists s, e; by rewrite Hcls, Hstr.
Qed.

Lemma translate_text_false_error_witness :
  translate_text translator_raises_bare (VStr "Habari") "en" "auto"
  = Ok {[ "error" := "" ]}
  /\ exists s e,
    VStr "Habari" = VStr s
    /\ translator_raises_bare "auto" "en" s = Raise e
    /\ exn_cls e <> TranslationNotFound
    /\ exn_str e = ""
    /\ ({[ "error" := "" ]} : gmap string string) = {[ "error" := "" ]}.
Proof.
  split; [reflexivity|].
  apply (translate_text_false_error translator_raises_bare (VStr "Habari")
           "en" "auto"); reflexivity.
Defined.

(** ** The sender of a webhook call *)

Lemma append_cons c s t : String c s +:+ t = String c (s +:+ t).
Proof. reflexivity. Qed.

Lemma append_empty t : "" +:+ t = t.
Proof. reflexivity. Qed.

Lemma startswith_append p t : startswith (p +:+ t) p = true.
Proof.
  induction p as [|c p IH]; [by destruct t|].
  rewrite append_cons. cbn. by rewrite Ascii.eqb_refl.
Qed.

Lemma startswith_drop s p :
  startswith s p = true -> s = p +:+ drop_chars (String.length p) s.
Proof.
  revert s. induction p as [|a p IH]; intros s; [done|].
  destruct s as [|b s]; cbn; [done|].
  destruct (Ascii.eqb a b) eqn:E; [|done].
  apply Ascii.eqb_eq in E as ->. intros H.
  rewrite append_cons. f_equal. by apply IH.
Qed.

Lemma startswith_prefix s t p :
  startswith s p = true -> startswith (s +:+ t) p = true.
Proof.
  revert s. induction p as [|a p IH]; intros s.
  { intros _. by destruct (s +:+ t). }
  destruct s as [|b s]; [done|]. rewrite append_cons. cbn.
  destruct (Ascii.eqb a b); [apply IH | done].
Qed.

Lemma contains_empty p : p <> "" -> contains p "" = false.
Proof. by destruct p. Qed.

Lemma startswith_contains p s : startswith s p = true -> contains p s = true.
Proof. intros H. destruct s; cbn [contains]; by rewrite H. Qed.

(** [partition] cuts at an occurrence, and nothing before the cut holds
    the separator. *)
Lemma partition_some sep s before after :
  sep <> "" ->
  partition sep s = Some (before, after) ->
  s = before +:+ sep +:+ after /\ contains sep before = false.
Proof.
  intros Hsep. revert before after.
  induction s as [|c s IH]; intros before after.
  - by destruct sep.
  - cbn [partition]. destruct (startswith (String c s) sep) eqn:E.
    + intros [= <- <-]. split; [by apply startswith_drop|].
      by apply contains_empty.
    + destruct (partition sep s) as [[b a]|] eqn:Hp; [|done].
      intros [= <- <-]. destruct (IH b a eq_refl) as [-> Hfree].
      split; [done|]. cbn [contains]. rewrite Hfree, orb_false_r.
      destruct (startswith (String c b) sep) eqn:E'; [|done].
      apply (startswith_prefix _ (sep +:+ a)) in E'.
      rewrite append_cons in E'. congruence.
Qed.

Lemma partition_none sep s :
  partition sep s = None <-> contains sep s = false.
Proof.
  induction s as [|c s IH]; cbn [partition contains].
  - destruct (startswith "" sep); [done|]. by rewrite orb_false_r.
  - destruct (startswith (String c s) sep); [done|]. cbn [orb].
    rewrite <- IH. by destruct (partition sep s) as [[? ?]|].
Qed.

Lemma length_append s t :
  String.length (s +:+ t) = (String.length s + String.length t)%nat.
Proof. induction s as [|c s IH]; [done|]. rewrite append_cons. cbn. by rewrite IH. Qed.

Lemma partition_shorter sep s before after :
  sep <> "" ->
  partition sep s = Some (before, after) ->
  (String.length after < String.length s)%nat.
Proof.
  intros Hsep Hp. destruct (partition_some _ _ _ _ Hsep Hp) as [-> _].
  rewrite !length_append. destruct sep; [done|]. cbn. lia.
Qed.

(** The fuel of [split] is enough: more of it changes nothing. *)
Lemma split_fuel_enough sep s fuel1 fuel2 :
  sep <> "" ->
  (String.length s <= fuel1)%nat -> (String.length s <= fuel2)%nat ->
  split_fuel fuel1 sep s = split_fuel fuel2 sep s.
Proof.
  intros Hsep. revert fuel2 s.
  assert (forall fuel, split_fuel fuel sep "" = [""]) as Hempty.
  { intros [|fuel]; [done|]. cbn [split_fuel].
    by rewrite (proj2 (partition_none sep "") (contains_empty _ Hsep)). }
  induction fuel1 as [|fuel1 IH]; intros fuel2 s H1 H2.
  - destruct s; [|cbn in H1; lia]. by rewrite !Hempty.
  - destruct fuel2 as [|fuel2].
    { destruct s; [|cbn in H2; lia]. by rewrite !Hempty. }
    cbn [split_fuel].
    destruct (partition sep s) as [[b a]|] eqn:Hp; [|done].
    pose proof (partition_shorter _ _ _ _ Hsep Hp).
    f_equal. apply IH; lia.
Qed.

Lemma append_empty_r s : s +:+ "" = s.
Proof. induction s as [|c s IH]; [done|]. by rewrite append_cons, IH. Qed.

Lemma drop_chars_append p t : drop_chars (String.length p) (p +:+ t) = t.
Proof. induction p as [|c p IH]; [done|]. rewrite append_cons. cbn. exact IH. Qed.

Lemma contains_false_startswith p s :
  contains p s = false -> startswith s p = false.
Proof.
  intros H. destruct (startswith s p) eqn:E; [|done].
  apply startswith_contains in E. congruence.
Qed.

Lemma partition_at_start sep t :
  sep <> "" -> partition sep (sep +:+ t) = Some ("", t).
Proof.
  destruct sep as [|c sep]; [done|]. intros _.
  change (String c sep +:+ t) with (String c (sep +:+ t)).
  cbn [partition].
  change (String c (sep +:+ t)) with (String c sep +:+ t).
  by rewrite startswith_append, drop_chars_append.
Qed.

(** What the webhook makes of [From], case by case. *)
Lemma webhook_patient_phone_cases From_ :
  (contains "whatsapp:" From_ = false /\ webhook_patient_phone From_ = Ok From_)
  \/ exists before after,
       partition "whatsapp:" From_ = Some (before, after)
       /\ ((contains "whatsapp:" after = false
            /\ webhook_patient_phone From_ = Ok after)
           \/ exists phone rest,
                partition "whatsapp:" after = Some (phone, rest)
                /\ webhook_patient_phone From_ = Ok phone).
Proof.
  unfold webhook_patient_phone, split. cbn [truthy negb].
  destruct (contains "whatsapp:" From_) eqn:Hc; [right | by left].
  destruct (partition "whatsapp:" From_) as [[before after]|] eqn:Hp.
  2: { apply partition_none in Hp. congruence. }
  exists before, after. split; [done|].
  pose proof (partition_shorter "whatsapp:" _ _ _ ltac:(done) Hp) as Hlen.
  destruct (String.length From_) as [|fuel] eqn:Hfuel; [lia|].
  cbn [split_fuel]. rewrite Hp.
  rewrite (split_fuel_enough "whatsapp:" after fuel (S fuel)) by (done || lia).
  cbn [split_fuel].
  destruct (partition "whatsapp:" after) as [[phone rest]|] eqn:Hp2.
  - right. by exists phone, rest.
  - left. by apply partition_none in Hp2.
Qed.

(** The webhook always gets a phone number out of [From], and never one
    that holds [whatsapp:].  A sender without the marker is taken as it
    is.  Otherwise the number is what stands between the first marker
    and the next one (or the end); what precedes the first marker and
    what follows the number is dropped. *)
Theorem webhook_patient_phone_spec From_ :
  exists phone,
    webhook_patient_phone From_ = Ok phone
    /\ contains "whatsapp:" phone = false
    /\ (contains "whatsapp:" From_ = false -> phone = From_)
    /\ (contains "whatsapp:" From_ = true ->
        exists before rest,
          From_ = before +:+ "whatsapp:" +:+ phone +:+ rest
          /\ contains "whatsapp:" before = false
          /\ (rest = "" \/ startswith rest "whatsapp:" = true)).
Proof.
  destruct (webhook_patient_phone_cases From_)
    as [[Hfree Hrun] | (before & after & Hp & Hcases)].
  - exists From_. repeat split; try done. congruence.
  - destruct (partition_some "whatsapp:" _ _ _ ltac:(done) Hp) as [HFrom Hbefore].
    assert (contains "whatsapp:" From_ = true) as Hc.
    { destruct (contains "whatsapp:" From_) eqn:E; [done|].
      apply partition_none in E. congruence. }
    destruct Hcases as [[Hfree Hrun] | (phone & rest & Hp2 & Hrun)].
    + exists after. repeat split; try done; [congruence|].
      intros _. exists before, "". rewrite append_empty_r. auto.
    + destruct (partition_some "whatsapp:" _ _ _ ltac:(done) Hp2) as [Hafter Hphone].
      exists phone. repeat split; try done; [congruence|].
      intros _. exists before, ("whatsapp:" +:+ rest).
      split; [by rewrite <- Hafter|]. split; [done|].
      right. apply startswith_append.
Qed.

(** The reply to a webhook call goes to [whatsapp:] followed by the
    phone number taken from [From]: the number never starts with the
    marker, so [send_whatsapp_message] always adds it.  For a sender of
    the form [whatsapp:<number>], with no second marker, the number is
    [<number>] and the reply goes back to [From] itself. *)
Theorem webhook_reply_address From_ create from body :
  exists phone,
    webhook_patient_phone From_ = Ok phone
    /\ send_whatsapp_message (Some create) from phone body
       = try_except (create from body ("whatsapp:" +:+ phone))
                    (fun e => Ok ("Error: " +:+ exn_str e))
    /\ (forall number,
          From_ = "whatsapp:" +:+ number ->
          contains "whatsapp:" number = false ->
          phone = number /\ "whatsapp:" +:+ phone = From_).
Proof.
  assert (forall phone, contains "whatsapp:" phone = false ->
            send_whatsapp_message (Some create) from phone body
            = try_except (create from body ("whatsapp:" +:+ phone))
                         (fun e => Ok ("Error: " +:+ exn_str e))) as Hsend.
  { intros phone Hfree. unfold send_whatsapp_message.
    by rewrite (contains_false_startswith _ _ Hfree). }
  destruct (webhook_patient_phone_cases From_)
    as [[Hfree Hrun] | (before & after & Hp & Hcases)].
  - exists From_. split; [done|]. split; [by apply Hsend|].
    intros number -> _.
    pose proof (startswith_contains _ _ (startswith_append "whatsapp:" number)).
    congruence.
  - assert (forall number, From_ = "whatsapp:" +:+ number -> after = number)
      as Hnum.
    { intros number ->. rewrite partition_at_start in Hp by done.
      congruence. }
    destruct Hcases as [[Hfree Hrun] | (phone & rest & Hp2 & Hrun)].
    + exists after. split; [done|]. split; [by apply Hsend|].
      intros number HFrom _. rewrite (Hnum _ HFrom). by rewrite HFrom.
    + destruct (partition_some "whatsapp:" _ _ _ ltac:(done) Hp2) as [_ Hphone].
      exists phone. split; [done|]. split; [by apply Hsend|].
      intros number HFrom Hfree. rewrite (Hnum _ HFrom) in Hp2.
      apply partition_none in Hfree. congruence.
Qed.

(** [send_whatsapp_message] hands the client a recipient that starts with
    [whatsapp:]: the one it was given if that already does, otherwise
    the one it was given behind the marker.  Sending to the recipient so
    completed is the same call. *)
Theorem send_whatsapp_message_recipient create from to_number body :
  exists recipient,
    startswith recipient "whatsapp:" = true
    /\ recipient = (if startswith to_number "whatsapp:" then to_number
                    else "whatsapp:" +:+ to_number)
    /\ send_whatsapp_message (Some create) from to_number body
       = try_except (create from body recipient)
                    (fun e => Ok ("Error: " +:+ exn_str e))
    /\ send_whatsapp_message (Some create) from recipient body
       = send_whatsapp_message (Some create) from to_number body.
Proof.
  unfold send_whatsapp_message.
  destruct (startswith to_number "whatsapp:") eqn:E; cbn [negb].
  - exists to_number. by rewrite E.
  - exists ("whatsapp:" +:+ to_number).
    by rewrite (startswith_append "whatsapp:" to_number).
Qed.

(** ** Set-up *)

(** Without the three Twilio settings, or when the client cannot be
    built, nothing is ever sent: every call of [send_whatsapp_message]
    returns the same text, whatever the recipient and the body. *)
Theorem unconfigured_client_never_sends
    sid token number Client to_number body :
  getenv_truthy sid = false \/ getenv_truthy token = false
  \/ getenv_truthy number = false
  \/ (exists e, Client (default "" sid) (default "" token) = Raise e) ->
  init_client sid token number Client = None
  /\ send_whatsapp_message (init_client sid token number Client)
       (default "" number) to_number body
     = Ok "Twilio client is not initialized. Cannot send message.".
Proof.
  intros H.
  assert (init_client sid token number Client = None) as ->; [|done].
  unfold init_client.
  destruct H as [-> | [-> | [-> | [e ->]]]];
    rewrite ?andb_false_r; try done.
  by destruct (negb _).
Qed.

Lemma unconfigured_client_never_sends_witness :
  (getenv_truthy (Some "ACxxxx") = false \/ getenv_truthy (Some "") = false
   \/ getenv_truthy (Some "whatsapp:+14155238886") = false
   \/ (exists e, (fun _ _ => Ok twilio_down) (default "" (Some "ACxxxx"))
                   (default "" (Some "")) = Raise e))
  /\ init_client (Some "ACxxxx") (Some "") (Some "whatsapp:+14155238886")
       (fun _ _ => Ok twilio_down) = None
  /\ send_whatsapp_message
       (init_client (Some "ACxxxx") (Some "") (Some "whatsapp:+14155238886")
          (fun _ _ => Ok twilio_down))
       (default "" (Some "whatsapp:+14155238886")) "+100" "Hello"
     = Ok "Twilio client is not initialized. Cannot send message.".
Proof.
  assert (getenv_truthy (Some "ACxxxx") = false
          \/ getenv_truthy (Some "") = false
          \/ getenv_truthy (Some "whatsapp:+14155238886") = false
          \/ (exists e, (fun _ _ => Ok twilio_down) (default "" (Some "ACxxxx"))
                          (default "" (Some "")) = Raise e)) as H
    by (right; left; reflexivity).
  split; [exact H|].
  exact (unconfigured_client_never_sends (Some "ACxxxx") (Some "")
           (Some "whatsapp:+14155238886") (fun _ _ => Ok twilio_down)
           "+100" "Hello" H).
Defined.

(** With the Anthropic key unset, empty, or still holding the placeholder
    [your_claude_api_key], the agent is built without building a chain,
    and every turn it runs gets one of the three labels of the keyword
    fallback; for a message detected as English the reply is then one of
    the three dedicated texts, never the generic one. *)
Theorem unconfigured_agent_uses_keywords
    key LLMChain env msg phone w r w' :
  getenv_truthy key = false
  \/ (exists k, key = Some k /\ contains "your_claude_api_key" k = true) ->
  CoordinatorAgent_init key LLMChain = Ok (llm_chain env) ->
  process_message env msg phone w = (Ok r, w') ->
  llm_chain env = None
  /\ In (intent r) FALLBACK_LABELS
  /\ (source_lang_of env msg = "en" ->
      In (response r) (map response_text_en FALLBACK_LABELS)).
Proof.
  intros Hkey Hinit Hrun.
  assert (llm_chain env = None) as Hnone.
  { unfold CoordinatorAgent_init in Hinit.
    destruct Hkey as [Hkey | (k & -> & Hk)].
    - rewrite Hkey in Hinit. cbn in Hinit. congruence.
    - change (default "" (Some k)) with k in Hinit.
      rewrite Hk, orb_true_r in Hinit. congruence. }
  split; [done|].
  destruct (completed_turn _ _ _ _ _ _ Hrun)
    as (text & patient & w1 & pev & _ & _ & Hc & Hout & _).
  rewrite Hnone in Hc.
  assert (In (intent r) FALLBACK_LABELS) as Hlabel.
  { unfold classify_intent in Hc. unfold FALLBACK_LABELS.
    repeat case_match; injection Hc as <-; cbn; tauto. }
  split; [done|].
  intros Hen. unfold outbound_text in Hout. rewrite Hen in Hout.
  cbn [String.eqb negb] in Hout. injection Hout as <-.
  by apply in_map.
Qed.

Lemma unconfigured_agent_uses_keywords_witness :
  (getenv_truthy (Some "your_claude_api_key_here") = false
   \/ (exists k, Some "your_claude_api_key_here" = Some k
                 /\ contains "your_claude_api_key" k = true))
  /\ CoordinatorAgent_init (Some "your_claude_api_key_here")
       (Ok llm_chatty) = Ok (llm_chain env_en)
  /\ llm_chain env_en = None
  /\ In "greeting" FALLBACK_LABELS
  /\ (source_lang_of env_en "Hello" = "en" ->
      In (response_text_en "greeting") (map response_text_en FALLBACK_LABELS)).
Proof.
  assert (getenv_truthy (Some "your_claude_api_key_here") = false
          \/ (exists k, Some "your_claude_api_key_here" = Some k
                        /\ contains "your_claude_api_key" k = true)) as H
    by (right; by exists "your_claude_api_key_here").
  split; [exact H|]. split; [reflexivity|].
  apply (unconfigured_agent_uses_keywords (Some "your_claude_api_key_here")
           (Ok llm_chatty) env_en "Hello" "+12345" empty_world
           (MkTurnResult "processed" "greeting" (response_text_en "greeting"))
           (process_message env_en "Hello" "+12345" empty_world).2 H);
    [reflexivity | vm_compute; reflexivity].
Defined.

(** ** The keyword fallback *)

Lemma lower_append s t : lower (s +:+ t) = lower s +:+ lower t.
Proof.
  induction s as [|c s IH]; [done|].
  rewrite append_cons. cbn [lower]. by rewrite IH, append_cons.
Qed.

Lemma contains_append_r p s t :
  contains p s = true -> contains p (s +:+ t) = true.
Proof.
  induction s as [|c s IH].
  - cbn [contains]. rewrite orb_false_r. intros H.
    apply startswith_contains. by apply (startswith_prefix "" t).
  - rewrite append_cons. cbn [contains].
    intros [H | H]%orb_true_iff; apply orb_true_iff.
    + left. rewrite <- append_cons. by apply startswith_prefix.
    + right. by apply IH.
Qed.

Lemma contains_append_l p s t :
  contains p t = true -> contains p (s +:+ t) = true.
Proof.
  intros H. induction s as [|c s IH]; [done|].
  rewrite append_cons. cbn [contains]. by rewrite IH, orb_true_r.
Qed.

Lemma contains_self p : contains p p = true.
Proof.
  apply startswith_contains. rewrite <- (append_empty_r p) at 1.
  apply startswith_append.
Qed.

Lemma contains_word p before word after :
  lower word = p ->
  contains p (lower (before +:+ word +:+ after)) = true.
Proof.
  intros <-. rewrite !lower_append.
  apply contains_append_l, contains_append_r, contains_self.
Qed.

(** Without an LLM chain, a message that holds [book] or [appointment]
    anywhere, in any letter case, is a [book_appointment]; one that holds
    [hello] or [habari] is a [greeting] unless it also holds one of the
    former two; and [unclear] is the label only of messages that hold
    none of the four words. *)
Theorem fallback_keywords before word after :
  (lower word = "book" \/ lower word = "appointment" ->
   classify_intent None (before +:+ word +:+ after) = Ok "book_appointment")
  /\ (lower word = "hello" \/ lower word = "habari" ->
      classify_intent None (before +:+ word +:+ after) = Ok "book_appointment"
      \/ classify_intent None (before +:+ word +:+ after) = Ok "greeting")
  /\ (classify_intent None (before +:+ word +:+ after) = Ok "unclear" ->
      lower word <> "book" /\ lower word <> "appointment"
      /\ lower word <> "hello" /\ lower word <> "habari").
Proof.
  unfold classify_intent.
  split; [|split].
  - intros [H | H]; rewrite (contains_word _ before word after H);
      by rewrite ?orb_true_r.
  - intros [H | H]; rewrite (contains_word _ before word after H);
      rewrite ?orb_true_r; destruct (_ || _); auto.
  - intros Hunclear.
    repeat split; intros H;
      rewrite (contains_word _ before word after H) in Hunclear;
      rewrite ?orb_true_r in Hunclear; cbn [orb] in Hunclear;
      repeat case_match; done.
Qed.

(** ** Registering a patient through the API *)




(** A patient registered through the API is the one the pipeline finds:
    when [get_or_create_patient] returns for the same phone number, it
    returns the same id and name, has added no row, and has left the
    requested language on record in place of the registered one; when
    the two languages are the same it returns the registered row and
    writes nothing. *)
Theorem registered_patient_is_recognized patient w row w1 language row' w2 :
  create_patient patient w = (Http_ok row, w1) ->
  get_or_create_patient (PatientCreate.phone_number patient) language w1
  = (Ok row', w2) ->
  Patient.id row' = Patient.id row
  /\ Patient.name row' = PatientCreate.name patient
  /\ Patient.language row' = Some language
  /\ query_patient (PatientCreate.phone_number patient) w2 = Some row'
  /\ length (patients w2) = length (patients w1)
  /\ (Patient.language row = Some language -> row' = row /\ w2 = w1).
Proof.
  unfold create_patient.
  destruct (query_patient (PatientCreate.phone_number patient) w) eqn:Hq;
    [done|].
  destruct (commit w _); [|done].
  intros [= <- <-].
  set (row := Patient.Build _ _ _ _).
  set (w1 := MkWorld _ _ _ _ _ _).
  assert (query_patient (PatientCreate.phone_number patient) w1 = Some row)
    as Hq1.
  { unfold query_patient in *. cbn [patients w1]. by apply find_new_patient. }
  intros Hrun.
  destruct (get_or_create_patient_spec _ _ _ _ _ Hrun)
    as (Hq2 & _ & Hlang & _ & _ & _ & _ & Hrows).
  rewrite Hq1 in Hrows. destruct Hrows as (Hid & Hlen & Hsame).
  repeat split; try done.
  - unfold get_or_create_patient in Hrun. rewrite Hq1 in Hrun.
    destruct (negb _); [|by injection Hrun as <- <-].
    destruct (commit w1 _); [|done]. by injection Hrun as <- <-.
  - by destruct (Hsame H).
  - by destruct (Hsame H).
Qed.

Lemma registered_patient_is_recognized_witness :
  create_patient patient_request empty_world
  = (Http_ok (Patient.Build 1 "+100" (Some "Amina") (Some "fr")),
     (create_patient patient_request empty_world).2)
  /\ get_or_create_patient (PatientCreate.phone_number patient_request) "sw"
       (create_patient patient_request empty_world).2
     = (Ok (Patient.Build 1 "+100" (Some "Amina") (Some "sw")),
        (get_or_create_patient (PatientCreate.phone_number patient_request)
           "sw" (create_patient patient_request empty_world).2).2)
  /\ Patient.id (Patient.Build 1 "+100" (Some "Amina") (Some "sw"))
     = Patient.id (Patient.Build 1 "+100" (Some "Amina") (Some "fr"))
  /\ Patient.name (Patient.Build 1 "+100" (Some "Amina") (Some "sw"))
     = PatientCreate.name patient_request
  /\ Patient.language (Patient.Build 1 "+100" (Some "Amina") (Some "sw"))
     = Some "sw"
  /\ query_patient (PatientCreate.phone_number patient_request)
       (get_or_create_patient (PatientCreate.phone_number patient_request)
          "sw" (create_patient patient_request empty_world).2).2
     = Some (Patient.Build 1 "+100" (Some "Amina") (Some "sw"))
  /\ length (patients
               (get_or_create_patient
                  (PatientCreate.phone_number patient_request) "sw"
                  (create_patient patient_request empty_world).2).2)
     = length (patients (create_patient patient_request empty_world).2)
  /\ (Patient.language (Patient.Build 1 "+100" (Some "Amina") (Some "fr"))
      = Some "sw" ->
      Patient.Build 1 "+100" (Some "Amina") (Some "sw")
      = Patient.Build 1 "+100" (Some "Amina") (Some "fr")
      /\ (get_or_create_patient (PatientCreate.phone_number patient_request)
            "sw" (create_patient patient_request empty_world).2).2
         = (create_patient patient_request empty_world).2).
Proof.
  split; [reflexivity|]. split; [reflexivity|].
  apply (registered_patient_is_recognized patient_request empty_world);
    reflexivity.
Defined.



(** ** The same message delivered twice *)



(** ** The label made of an LLM answer *)

Lemma lower_char_idem c : lower_char (lower_char c) = lower_char c.
Proof. by destruct c as [[] [] [] [] [] [] [] []]. Qed.

Lemma isspace_lower_char c : isspace (lower_char c) = isspace c.
Proof. by destruct c as [[] [] [] [] [] [] [] []]. Qed.

Lemma lower_idem s : lower (lower s) = lower s.
Proof.
  induction s as [|c s IH]; [done|]. cbn. by rewrite IH, lower_char_idem.
Qed.

Lemma lstrip_lower s : lstrip (lower s) = lower (lstrip s).
Proof.
  induction s as [|c s IH]; [done|]. cbn [lower lstrip].
  rewrite isspace_lower_char. by destruct (isspace c).
Qed.

Lemma rstrip_cons c s :
  rstrip (String c s)
  = match rstrip s with
    | EmptyString => if isspace c then EmptyString else String c EmptyString
    | t => String c t
    end.
Proof. reflexivity. Qed.

Lemma rstrip_lower s : rstrip (lower s) = lower (rstrip s).
Proof.
  induction s as [|c s IH]; [done|]. cbn [lower].
  rewrite !rstrip_cons, IH, isspace_lower_char.
  destruct (rstrip s); cbn [lower]; [by destruct (isspace c) | done].
Qed.

Lemma rstrip_idem s : rstrip (rstrip s) = rstrip s.
Proof.
  induction s as [|c s IH]; [done|]. rewrite rstrip_cons.
  destruct (rstrip s) as [|d t] eqn:E.
  - destruct (isspace c) eqn:Hc; [done|]. cbn [rstrip]. by rewrite Hc.
  - by rewrite rstrip_cons, IH.
Qed.

Lemma lstrip_rstrip_lstrip s : lstrip (rstrip (lstrip s)) = rstrip (lstrip s).
Proof.
  induction s as [|c s IH]; [done|]. cbn [lstrip].
  destruct (isspace c) eqn:Hc; [exact IH|]. rewrite rstrip_cons.
  destruct (rstrip s); rewrite ?Hc; cbn [lstrip]; by rewrite Hc.
Qed.

Lemma strip_idem s : strip (strip s) = strip s.
Proof. unfold strip. by rewrite lstrip_rstrip_lstrip, rstrip_idem. Qed.

(** The label [classify_intent] makes of an LLM answer is in normal
    form: stripping it or lower-casing it again changes nothing; and two
    answers that differ only in letter case and in the white space around
    them get the same label. *)
Theorem llm_label_normalized run message answer label :
  run message = Ok answer ->
  classify_intent (Some run) message = Ok label ->
  strip label = label
  /\ lower label = label
  /\ label = strip (lower answer)
  /\ (forall run' answer',
        run' message = Ok answer' ->
        strip (lower answer') = strip (lower answer) ->
        classify_intent (Some run') message = Ok label).
Proof.
  unfold classify_intent. intros -> [= <-]. cbn [try_except].
  assert (forall s, lower (strip s) = strip (lower s)) as Hcomm.
  { intros s. unfold strip. by rewrite lstrip_lower, rstrip_lower. }
  split. { by rewrite Hcomm, strip_idem. }
  split. { by rewrite lower_idem. }
  split. { apply Hcomm. }
  intros run' answer' -> Heq. cbn [try_except].
  by rewrite !Hcomm, Heq.
Qed.

Lemma llm_label_normalized_witness :
  llm_chatty "hello" = Ok "I am not sure."
  /\ classify_intent (Some llm_chatty) "hello" = Ok "i am not sure."
  /\ strip "i am not sure." = "i am not sure."
  /\ lower "i am not sure." = "i am not sure."
  /\ "i am not sure." = strip (lower "I am not sure.")
  /\ (forall run' answer',
        run' "hello" = Ok answer' ->
        strip (lower answer') = strip (lower "I am not sure.") ->
        classify_intent (Some run') "hello" = Ok "i am not sure.").
Proof.
  split; [reflexivity|]. split; [reflexivity|].
  apply (llm_label_normalized llm_chatty "hello" "I am not sure.");
    reflexivity.
Defined.
